(** * CookAway: the VoiceInteraction session component

    A shallow embedding of the React component [VoiceInteraction]
    (src/unnamed/part_002, the revision with [stepStatuses]; its sibling
    frontend/src/components/VoiceInteraction.tsx has the same handlers).

    The component is a function that React calls once per render.  Every
    [useState] cell is a constant of that call, and every handler defined
    in the body is a closure over the constants of the render that created
    it.  The embedding therefore keeps two things apart:

    - the [World]: the live value of each state cell and ref, plus the
      bookkeeping of the browser (unsettled requests, the armed interval,
      the observable effects);
    - a [Render]: the state values a closure captured.  A handler reads
      state through its [Render] and writes through the setters, which act
      on the [World].  Refs ([currentStateRef], [recognitionRef]) are read
      from the [World].

    Handlers registered by the mount effect (empty dependency array) keep
    the first render for ever, and so does an async function across its
    await; the interval callback keeps the render in which the timer
    effect last ran; [onClick] and [onSubmit] handlers belong to the
    latest render.  The setters called by one handler are committed
    together, and the effects run after that commit.

    Left out of the [World], as no handler reads them: [transcript],
    [substitutionOptions], [recipeSteps], [completedSteps] and
    [currentStepNumber] with the effects that derive them from the text
    of the last message, the effect that copies the [recipeId] prop
    into [currentRecipeId], the request side of the recipe fetch,
    scrolling and console logging.  The pure parts of the presentation are
    functions of their own: the step list handed to the dashboard
    ([processedSteps]), the colour of a dashboard row ([statusColor]) and
    the clock text ([formatTime]). *)

From Stdlib Require Import ZArith String Ascii List Bool Lia.
From stdpp Require Import base option list gmap strings pretty.

Open Scope string_scope.
Open Scope list_scope.

(** ** Data model *)

Inductive ConversationState :=
| initial_summary
| asking_servings
| asking_substitution
| ready_to_cook
| cooking.

Inductive Sender := user | assistant.

(** Step status strings used by the dashboard. *)
Inductive StepStatus := not_started | in_progress | completed.

(** A JavaScript number as [parseInt] produces it: an integer or [NaN]
    (integers are exact; the rounding of doubles beyond 2^53 is not
    modelled). *)
Inductive JSNum := NaN | Int (z : Z).

#[global] Instance ConversationState_eq_dec : EqDecision ConversationState.
Proof. solve_decision. Defined.

#[global] Instance StepStatus_eq_dec : EqDecision StepStatus.
Proof. solve_decision. Defined.

#[global] Instance JSNum_eq_dec : EqDecision JSNum.
Proof. solve_decision. Defined.

Definition JSNum_to_option (n : JSNum) : option Z :=
  match n with NaN => None | Int z => Some z end.

Definition JSNum_of_option (o : option Z) : JSNum :=
  match o with None => NaN | Some z => Int z end.

#[global] Program Instance JSNum_countable : Countable JSNum :=
  inj_countable' JSNum_to_option JSNum_of_option _.
Next Obligation. by intros []. Qed.

Module ParallelTask.
Record t := mk {
  step_number : JSNum;
  instruction : string;
  estimated_time : JSNum
}.
End ParallelTask.

(** interface TimerData.  Keys of [step_statuses] are step numbers (the
    decimal strings JavaScript uses as property names are in bijection
    with them). *)
Module TimerData.
Record t := mk {
  duration : JSNum;
  step : JSNum;
  type : string;
  step_statuses : option (gmap JSNum StepStatus);
  warning_time : JSNum;
  parallel_tasks : option (list ParallelTask.t)
}.
End TimerData.

(** interface Message.  [id] comes from Math.random and [timestamp] from
    the clock: both are supplied by the environment with each append. *)
Module Message.
Record t := mk {
  id : string;
  type : Sender;
  content : string;
  timestamp : Z;
  state : option ConversationState;
  timer : option TimerData.t
}.
End Message.

Module Stamp.
Record t := mk { id : string; timestamp : Z }.
End Stamp.

(** The response of POST /api/recipes/:id/voice-interaction: the headers
    the component reads and the audio blob. *)
Module Response.
Record t := mk {
  x_next_state : option ConversationState;
  x_updated_recipe_id : option string;
  x_full_response : option string;
  x_response_text_encoded : bool;
  x_timer_data : option string;
  data : string
}.
End Response.

Inductive Result := Failed | Ok (r : Response.t).

(** ** Platform builtins

    Callers of these are in the component; the functions themselves belong
    to the browser.  [None] stands for a thrown exception. *)
Class Platform := {
  JSValue : Type;
  atob : string -> option string;
  JSON_parse : string -> option JSValue;
  (* property read [v.k]: throws on null, yields undefined when missing *)
  get : JSValue -> string -> option JSValue;
  parseInt : JSValue -> JSNum;
  String_ : JSValue -> string;
  (* the value of [timerData.parallel_tasks] at its declared type
     Array<ParallelTask> | undefined *)
  as_tasks : JSValue -> option (list ParallelTask.t)
}.

(** ** Observable effects *)
Inductive Effect :=
| Toast (title description : string)
| PlaySound (src : string)
| RecognitionStart
| RecognitionStop
| Post (recipe_id transcript : string) (current_state : ConversationState)
| PlayResponse (audio : string)
| OnRecipeUpdate (id : string).

(** ** Renders and the world *)

(** The state constants that handlers read from their closure. *)
Record Render := mkRender {
  isListening : bool;
  isPlaying : bool;
  timeRemaining : option Z;
  currentRecipeId : string;
  textInput : string
}.

Inductive RequestKind := Summary | VoiceInput | TextSubmit.

(** An awaited axios.post together with the closure that awaits it. *)
Record Request := mkRequest {
  kind : RequestKind;
  closure : Render
}.

Record World := mkWorld {
  (* useState cells *)
  view : Render;
  currentState : ConversationState;
  messages : list Message.t;
  activeTimer : bool;                      (* holds an interval id, or null *)
  activeParallelSteps : list JSNum;
  stepStatuses : gmap JSNum StepStatus;
  (* refs *)
  currentStateRef : ConversationState;
  recognitionRef : bool;                   (* recognitionRef.current is set *)
  (* the browser *)
  mounted : Render;                        (* the first render *)
  interval : option Render;                (* the armed interval's closure *)
  pending : list Request;
  trace : list Effect
}.

(** ** Setters

    One per [useState] setter, acting on the live world. *)

Definition with_view (f : Render -> Render) (w : World) : World :=
  mkWorld (f (view w)) (currentState w) (messages w) (activeTimer w)
    (activeParallelSteps w) (stepStatuses w) (currentStateRef w)
    (recognitionRef w) (mounted w) (interval w) (pending w) (trace w).

Definition setIsListening (b : bool) : World -> World :=
  with_view (fun v =>
    mkRender b (isPlaying v) (timeRemaining v) (currentRecipeId v) (textInput v)).

Definition setIsPlaying (b : bool) : World -> World :=
  with_view (fun v =>
    mkRender (isListening v) b (timeRemaining v) (currentRecipeId v) (textInput v)).

Definition setTimeRemaining (t : option Z) : World -> World :=
  with_view (fun v =>
    mkRender (isListening v) (isPlaying v) t (currentRecipeId v) (textInput v)).

Definition setCurrentRecipeId (id : string) : World -> World :=
  with_view (fun v =>
    mkRender (isListening v) (isPlaying v) (timeRemaining v) id (textInput v)).

Definition setTextInput (s : string) : World -> World :=
  with_view (fun v =>
    mkRender (isListening v) (isPlaying v) (timeRemaining v) (currentRecipeId v) s).

Definition setCurrentState (c : ConversationState) (w : World) : World :=
  mkWorld (view w) c (messages w) (activeTimer w)
    (activeParallelSteps w) (stepStatuses w) (currentStateRef w)
    (recognitionRef w) (mounted w) (interval w) (pending w) (trace w).

Definition setMessages (f : list Message.t -> list Message.t) (w : World) : World :=
  mkWorld (view w) (currentState w) (f (messages w)) (activeTimer w)
    (activeParallelSteps w) (stepStatuses w) (currentStateRef w)
    (recognitionRef w) (mounted w) (interval w) (pending w) (trace w).

Definition setActiveTimer (b : bool) (w : World) : World :=
  mkWorld (view w) (currentState w) (messages w) b
    (activeParallelSteps w) (stepStatuses w) (currentStateRef w)
    (recognitionRef w) (mounted w) (interval w) (pending w) (trace w).

Definition setActiveParallelSteps (l : list JSNum) (w : World) : World :=
  mkWorld (view w) (currentState w) (messages w) (activeTimer w)
    l (stepStatuses w) (currentStateRef w)
    (recognitionRef w) (mounted w) (interval w) (pending w) (trace w).

Definition setStepStatuses
    (f : gmap JSNum StepStatus -> gmap JSNum StepStatus) (w : World) : World :=
  mkWorld (view w) (currentState w) (messages w) (activeTimer w)
    (activeParallelSteps w) (f (stepStatuses w)) (currentStateRef w)
    (recognitionRef w) (mounted w) (interval w) (pending w) (trace w).

(** Refs and browser bookkeeping. *)

Definition set_currentStateRef (c : ConversationState) (w : World) : World :=
  mkWorld (view w) (currentState w) (messages w) (activeTimer w)
    (activeParallelSteps w) (stepStatuses w) c
    (recognitionRef w) (mounted w) (interval w) (pending w) (trace w).

Definition set_interval (i : option Render) (w : World) : World :=
  mkWorld (view w) (currentState w) (messages w) (activeTimer w)
    (activeParallelSteps w) (stepStatuses w) (currentStateRef w)
    (recognitionRef w) (mounted w) i (pending w) (trace w).

Definition set_pending (p : list Request) (w : World) : World :=
  mkWorld (view w) (currentState w) (messages w) (activeTimer w)
    (activeParallelSteps w) (stepStatuses w) (currentStateRef w)
    (recognitionRef w) (mounted w) (interval w) p (trace w).

Definition emit (e : Effect) (w : World) : World :=
  mkWorld (view w) (currentState w) (messages w) (activeTimer w)
    (activeParallelSteps w) (stepStatuses w) (currentStateRef w)
    (recognitionRef w) (mounted w) (interval w) (pending w) (trace w ++ [e]).

(** axios.post(...) followed by await: the request goes out and the rest
    of the async function waits with its closure. *)
Definition await (k : RequestKind) (r : Render) (post : Effect) (w : World) : World :=
  set_pending (pending w ++ [mkRequest k r]) (emit post w).

(** ** JavaScript truthiness *)

Definition truthy (s : string) : bool := negb (s =? "").

(** [!timeRemaining] for a value of type number | null. *)
Definition noTime (t : option Z) : bool :=
  match t with None => true | Some z => (z =? 0)%Z end.

(** [n > 0] on a JavaScript number; false for NaN. *)
Definition positive (n : JSNum) : bool :=
  match n with Int z => (0 <? z)%Z | NaN => false end.

Definition isSpace (c : ascii) : bool :=
  let n := nat_of_ascii c in ((9 <=? n) && (n <=? 13) || (n =? 32))%nat.

(** [!s.trim()] *)
Fixpoint isBlank (s : string) : bool :=
  match s with
  | EmptyString => true
  | String c s' => isSpace c && isBlank s'
  end.

(** ** Capture and playback (lines 921-950)

    [r] is the render the calling closure captured.  [ok] tells whether
    recognition.start() returns; it throws when recognition is already
    started, and the catch block only logs.  [audioRef.current] is set by
    the mount effect before anything can play. *)

Definition startListening (r : Render) (ok : bool) (w : World) : World :=
  if recognitionRef w && negb (isListening r) && negb (isPlaying r) then
    if ok then setIsListening true (emit RecognitionStart w) else w
  else w.

Definition stopListening (r : Render) (w : World) : World :=
  if recognitionRef w && isListening r then
    setIsListening false (emit RecognitionStop w)
  else w.

Definition playAudioResponse (r : Render) (audioBlob : string) (w : World) : World :=
  let w := if isListening r then stopListening r w else w in
  setIsPlaying true (emit (PlayResponse audioBlob) w).

(** ** The message log (lines 856-865) *)

Definition addMessage (st : Stamp.t) (type : Sender) (content : string)
    (state : option ConversationState) (timer : option TimerData.t)
    (w : World) : World :=
  setMessages (fun prev =>
    prev ++ [Message.mk (Stamp.id st) type content (Stamp.timestamp st) state timer]) w.

(** ** Conversation turns (lines 867-919 and 952-1166) *)

Section Component.
Context `{Platform}.

Definition decodeBase64Text (encodedText : string) : string :=
  match atob encodedText with
  | Some text => text
  | None => encodedText
  end.

(** [encoded && isEncoded ? decodeBase64Text(encoded) : encoded] *)
Definition responseText (resp : Response.t) : option string :=
  match Response.x_full_response resp with
  | Some encoded =>
      if truthy encoded && Response.x_response_text_encoded resp
      then Some (decodeBase64Text encoded)
      else Some encoded
  | None => None
  end.

(** The body of the inner [try] up to the assignment of [timer]; [None]
    when JSON.parse or a property read throws.  [handleTextSubmit] builds
    the object without [parallel_tasks]. *)
Definition parseTimerData (withTasks : bool) (timerDataJson : string)
    : option TimerData.t :=
  timerData ← JSON_parse (decodeBase64Text timerDataJson);
  d ← get timerData "duration";
  ty ← get timerData "type";
  s ← get timerData "step";
  wt ← get timerData "warning_time";
  tasks ← (if withTasks then as_tasks <$> get timerData "parallel_tasks"
           else Some None);
  Some (TimerData.mk (parseInt d) (parseInt s) (String_ ty) None
          (parseInt wt) tasks).

(** [let timer = undefined; if (timerDataJson) { try { ... } catch {} }] *)
Definition readTimer (withTasks : bool) (resp : Response.t) : option TimerData.t :=
  match Response.x_timer_data resp with
  | Some timerDataJson =>
      if truthy timerDataJson then parseTimerData withTasks timerDataJson else None
  | None => None
  end.

(** Only set timeRemaining if it's not a stop signal. *)
Definition startOrStopTimer (timer : TimerData.t) (w : World) : World :=
  match TimerData.duration timer with
  | Int d =>
      if (0 <? d)%Z then setTimeRemaining (Some d) w
      else setTimeRemaining None w
  | NaN => setTimeRemaining None w
  end.

(** The steps [handleVoiceInput] and [handleTextSubmit] take on a
    response, in source order. *)

(** [if (updatedRecipeId) { setCurrentRecipeId(..); onRecipeUpdate(..) }] *)
Definition updateRecipe (resp : Response.t) (w : World) : World :=
  match Response.x_updated_recipe_id resp with
  | Some updatedRecipeId =>
      if truthy updatedRecipeId
      then emit (OnRecipeUpdate updatedRecipeId)
             (setCurrentRecipeId updatedRecipeId w)
      else w
  | None => w
  end.

(** The inner [try { timer = ...; setTimeRemaining(..) } catch { log }]. *)
Definition handleTimerData (timer : option TimerData.t) (w : World) : World :=
  match timer with
  | Some t => startOrStopTimer t w
  | None => w
  end.

(** [if (responseText) addMessage('assistant', responseText, nextState, timer)] *)
Definition appendAssistant (st : Stamp.t) (text : option string)
    (nextState : option ConversationState) (timer : option TimerData.t)
    (w : World) : World :=
  match text with
  | Some content =>
      if truthy content then addMessage st assistant content nextState timer w
      else w
  | None => w
  end.

(** [if (nextState && nextState !== currentStateRef.current)
      setCurrentState(nextState)] *)
Definition transition (nextState : option ConversationState) (w : World) : World :=
  match nextState with
  | Some s => if bool_decide (s = currentStateRef w) then w else setCurrentState s w
  | None => w
  end.

Definition applyResponse (r : Render) (withTasks : bool) (resp : Response.t)
    (st : Stamp.t) (w : World) : World :=
  let nextState := Response.x_next_state resp in
  let text := responseText resp in
  let w := updateRecipe resp w in
  let timer := readTimer withTasks resp in
  let w := handleTimerData timer w in
  let w := appendAssistant st text nextState timer w in
  let w := transition nextState w in
  playAudioResponse r (Response.data resp) w.

Definition handleVoiceInput (r : Render) (transcript : string) (st : Stamp.t)
    (w : World) : World :=
  let currentStateValue := currentStateRef w in
  let w := addMessage st user transcript None None w in
  let w := setIsPlaying true w in
  await VoiceInput r (Post (currentRecipeId r) transcript currentStateValue) w.

Definition handleVoiceInput_settled (r : Render) (res : Result) (st : Stamp.t)
    (w : World) : World :=
  match res with
  | Ok resp => applyResponse r true resp st w
  | Failed =>
      setIsPlaying false
        (emit (Toast "Error" "Failed to process voice input. Please try again.") w)
  end.

Definition handleTextSubmit (r : Render) (st : Stamp.t) (w : World) : World :=
  if isBlank (textInput r) then w
  else
    let w := addMessage st user (textInput r) None None w in
    let w := setIsPlaying true w in
    await TextSubmit r (Post (currentRecipeId r) (textInput r) (currentStateRef w)) w.

Definition handleTextSubmit_settled (r : Render) (res : Result) (st : Stamp.t)
    (w : World) : World :=
  match res with
  | Ok resp => setTextInput "" (applyResponse r false resp st w)
  | Failed =>
      setIsPlaying false
        (emit (Toast "Error" "Failed to process text input. Please try again.") w)
  end.

Definition getRecipeSummary (r : Render) (w : World) : World :=
  await Summary r (Post (currentRecipeId r) "" (currentStateRef w)) w.

Definition getRecipeSummary_settled (r : Render) (res : Result) (st : Stamp.t)
    (w : World) : World :=
  match res with
  | Ok resp =>
      let nextState := Response.x_next_state resp in
      let text := responseText resp in
      let w := match nextState with Some s => setCurrentState s w | None => w end in
      let w := appendAssistant st text nextState None w in
      playAudioResponse r (Response.data resp) w
  | Failed => emit (Toast "Error" "Failed to get recipe summary") w
  end.

(** ** Handlers registered by the mount effect (lines 520-608)

    They run with the first render, [mounted w]. *)

Definition onresult (transcript : string) (st : Stamp.t) (w : World) : World :=
  handleVoiceInput (mounted w) transcript st w.

Definition onerror (error : string) (ok : bool) (w : World) : World :=
  let w := setIsListening false w in
  if error =? "no-speech" then startListening (mounted w) ok w
  else emit (Toast "Error" "Failed to recognize speech. Please try again.") w.

Definition onend (w : World) : World := setIsListening false w.

Definition handleAudioEnd (ok : bool) (w : World) : World :=
  let w := setIsPlaying false w in
  if negb (bool_decide (currentStateRef w = initial_summary))
     && noTime (timeRemaining (mounted w))
  then startListening (mounted w) ok w
  else w.

(** The microphone button: [onClick={isListening ? stopListening :
    startListening}], [isDisabled={isPlaying}], of the latest render. *)
Definition onClickMic (ok : bool) (w : World) : World :=
  let r := view w in
  if isPlaying r then w
  else if isListening r then stopListening r w
  else startListening r ok w.

(** ** The countdown (lines 640-706) *)

(** The interval callback: [setTimeRemaining(prev => ...)], with the
    side effects the updater performs. *)
Definition onInterval (r : Render) (ok : bool) (w : World) : World :=
  match timeRemaining (view w) with
  | None => w
  | Some prev =>
      let newTime := (prev - 1)%Z in
      let w :=
        if (newTime =? 20)%Z
        then emit (Toast "Timer Warning" "20 seconds remaining!")
               (emit (PlaySound "/warning.mp3") w)
        else w in
      if (newTime <=? 0)%Z
      then
        let w := emit (PlaySound "/timer-done.mp3") w in
        let w := emit (Toast "Timer Complete!" "Your timer has finished.") w in
        let w := startListening r ok w in
        setTimeRemaining None w
      else setTimeRemaining (Some newTime) w
  end.

(** The effect on [timeRemaining]; the cleanup of its previous run has
    cleared the interval that run armed. *)
Definition timerEffect (w : World) : World :=
  let w := set_interval None w in
  match timeRemaining (view w) with
  | Some t =>
      if (t <=? 0)%Z
      then
        let w := setTimeRemaining None w in
        if activeTimer w then setActiveTimer false w else w
      else setActiveTimer true (set_interval (Some (view w)) w)
  | None => if activeTimer w then setActiveTimer false w else w
  end.

(** ** Step progress (lines 620-637 and 832-854) *)

(** The effect on [messages, timeRemaining]. *)
Definition parallelStepsEffect (w : World) : World :=
  match last (messages w) with
  | Some lastMessage =>
      match Message.timer lastMessage ≫= TimerData.parallel_tasks with
      | Some tasks =>
          setActiveParallelSteps (map ParallelTask.step_number tasks) w
      | None =>
          if noTime (timeRemaining (view w)) then setActiveParallelSteps [] w
          else w
      end
  | None => w
  end.

(** The effect on [messages]:
    [{...prev, ...timer.step_statuses, [timer.step]: 'in_progress'}]. *)
Definition stepStatusesEffect (w : World) : World :=
  match last (messages w) ≫= Message.timer with
  | Some timer =>
      setStepStatuses (fun prev =>
        <[TimerData.step timer := in_progress]>
          (default ∅ (TimerData.step_statuses timer) ∪ prev)) w
  | None => w
  end.

(** [setStepStatuses(metadata.step_statuses)] when the recipe fetch of the
    effect on [currentRecipeId, currentState] settles (lines 741-746). *)
Definition onRecipeFetched (step_statuses : option (gmap JSNum StepStatus))
    (w : World) : World :=
  match step_statuses with
  | Some m => setStepStatuses (fun _ => m) w
  | None => w
  end.

(** What the dashboard shows: [stepStatuses[stepNumber] || 'not_started']. *)
Definition statusOf (w : World) (n : JSNum) : StepStatus :=
  default not_started (stepStatuses w !! n).

Definition rank (s : StepStatus) : nat :=
  match s with not_started => 0 | in_progress => 1 | completed => 2 end.

(** ** Events and the commit phase *)

Inductive Event :=
| ClickMic (ok : bool)
| SpeechResult (transcript : string) (st : Stamp.t)
| SpeechError (error : string) (ok : bool)
| SpeechEnd
| AudioEnded (ok : bool)
| TypeText (s : string)
| SubmitText (st : Stamp.t)
| Settle (i : nat) (res : Result) (st : Stamp.t)
| Tick (ok : bool)
| RecipeFetched (step_statuses : option (gmap JSNum StepStatus)).

(** The [i]-th awaited request settles and its async function resumes
    with the closure it started with. *)
Definition settle (i : nat) (res : Result) (st : Stamp.t) (w : World) : World :=
  match pending w !! i with
  | Some q =>
      let w := set_pending (delete i (pending w)) w in
      match kind q with
      | Summary => getRecipeSummary_settled (closure q) res st w
      | VoiceInput => handleVoiceInput_settled (closure q) res st w
      | TextSubmit => handleTextSubmit_settled (closure q) res st w
      end
  | None => w
  end.

Definition handle (e : Event) (w : World) : World :=
  match e with
  | ClickMic ok => onClickMic ok w
  | SpeechResult transcript st => onresult transcript st w
  | SpeechError error ok => onerror error ok w
  | SpeechEnd => onend w
  | AudioEnded ok => handleAudioEnd ok w
  | TypeText s => setTextInput s w
  | SubmitText st => handleTextSubmit (view w) st w
  | Settle i res st => settle i res st w
  | Tick ok =>
      match interval w with
      | Some r => onInterval r ok w
      | None => w
      end
  | RecipeFetched m => onRecipeFetched m w
  end.

(** One pass of the effects whose dependencies differ between two
    renders, in source order.  [messages] only ever grows by one append
    per [addMessage], so its identity changed iff its length did. *)
Definition runEffects (before after : World) : World :=
  let msgs := negb (length (messages before) =? length (messages after))%nat in
  let time :=
    negb (bool_decide (timeRemaining (view before) = timeRemaining (view after))) in
  let w := set_currentStateRef (currentState after) after in
  let w := if msgs || time then parallelStepsEffect w else w in
  let w := if time then timerEffect w else w in
  if msgs then stepStatusesEffect w else w.

(** The render after a handler, and the render the effects' own setters
    cause. *)
Definition commit (before after : World) : World :=
  runEffects after (runEffects before after).

Definition dispatch (e : Event) (w : World) : World := commit w (handle e w).

Definition run (es : list Event) (w : World) : World :=
  foldl (fun w e => dispatch e w) w es.

(** The first render and the mount effect, which installs the handlers
    and asks for the opening narration. *)
Definition firstRender (recipeId : string) : Render :=
  mkRender false false None recipeId "".

Definition mount (recipeId : string) (speech : bool) : World :=
  getRecipeSummary (firstRender recipeId)
    (mkWorld (firstRender recipeId) initial_summary [] false [] ∅
       initial_summary speech (firstRender recipeId) None [] []).

End Component.

(** ** A reference browser

    Executable versions of the builtins, enough to run the component on
    concrete responses: base64 decoding, and JSON restricted to integers,
    strings without escapes, arrays and objects.  The theorems below hold
    for every [Platform]; this one supplies the concrete runs. *)

Module Browser.

#[warnings="-register-all"]
Inductive Json :=
| JUndefined
| JNull
| JBool (b : bool)
| JNumber (z : Z)
| JString (s : string)
| JArray (l : list Json)
| JObject (fields : list (string * Json)).

Definition quote : ascii := "034"%char.
Definition backslash : ascii := "092"%char.

Definition between (lo hi : nat) (c : ascii) : bool :=
  let n := nat_of_ascii c in ((lo <=? n) && (n <=? hi))%nat.

(** *** atob *)

Definition sextet (c : ascii) : option N :=
  let n := N_of_ascii c in
  if between 65 90 c then Some (n - 65)%N
  else if between 97 122 c then Some (n - 71)%N
  else if between 48 57 c then Some (n + 4)%N
  else if Ascii.eqb c "+" then Some 62%N
  else if Ascii.eqb c "/" then Some 63%N
  else None.

Definition byte (n : N) : ascii := ascii_of_N (n mod 256).

Fixpoint octets (l : list N) : option (list ascii) :=
  match l with
  | [] => Some []
  | [_] => None
  | [a; b] => Some [byte (a * 4 + b / 16)]
  | [a; b; c] => Some [byte (a * 4 + b / 16); byte (b * 16 + c / 4)]
  | a :: b :: c :: d :: rest =>
      tl ← octets rest;
      Some (byte (a * 4 + b / 16) :: byte (b * 16 + c / 4) :: byte (c * 64 + d) :: tl)
  end.

Definition unpad (cs : list ascii) : list ascii :=
  match rev cs with
  | "=" :: "=" :: r => rev r
  | "=" :: r => rev r
  | _ => cs
  end%char.

Definition atob (s : string) : option string :=
  digits ← mapM sextet (unpad (list_ascii_of_string s));
  string_of_list_ascii <$> octets digits.

(** *** JSON.parse *)

Fixpoint skip_ws (cs : list ascii) : list ascii :=
  match cs with
  | c :: rest => if isSpace c then skip_ws rest else cs
  | [] => []
  end.

Fixpoint take_digits (acc : Z) (cs : list ascii) : Z * list ascii :=
  match cs with
  | c :: rest =>
      if between 48 57 c
      then take_digits (acc * 10 + Z.of_nat (nat_of_ascii c) - 48)%Z rest
      else (acc, cs)
  | [] => (acc, [])
  end.

Definition take_int (cs : list ascii) : option (Z * list ascii) :=
  match cs with
  | "-"%char :: (c :: _) as rest =>
      if between 48 57 c
      then let '(z, rest') := take_digits 0 rest in Some ((- z)%Z, rest')
      else None
  | c :: _ => if between 48 57 c then Some (take_digits 0 cs) else None
  | [] => None
  end.

(** The characters up to the closing quote. *)
Fixpoint take_string (cs : list ascii) : option (string * list ascii) :=
  match cs with
  | c :: rest =>
      if Ascii.eqb c quote then Some ("", rest)
      else if Ascii.eqb c backslash then None
      else '(s, rest') ← take_string rest; Some (String c s, rest')
  | [] => None
  end.

Fixpoint parse_elements (value : list ascii -> option (Json * list ascii))
    (fuel : nat) (cs : list ascii) : option (list Json * list ascii) :=
  match fuel with
  | O => None
  | S fuel =>
      '(v, rest) ← value cs;
      match skip_ws rest with
      | ","%char :: rest' =>
          '(vs, rest'') ← parse_elements value fuel rest'; Some (v :: vs, rest'')
      | "]"%char :: rest' => Some ([v], rest')
      | _ => None
      end
  end.

Fixpoint parse_members (value : list ascii -> option (Json * list ascii))
    (fuel : nat) (cs : list ascii) : option (list (string * Json) * list ascii) :=
  match fuel with
  | O => None
  | S fuel =>
      match skip_ws cs with
      | q :: rest =>
          if Ascii.eqb q quote then
            '(k, rest) ← take_string rest;
            match skip_ws rest with
            | ":"%char :: rest =>
                '(v, rest) ← value rest;
                match skip_ws rest with
                | ","%char :: rest' =>
                    '(ms, rest'') ← parse_members value fuel rest';
                    Some ((k, v) :: ms, rest'')
                | "}"%char :: rest' => Some ([(k, v)], rest')
                | _ => None
                end
            | _ => None
            end
          else None
      | [] => None
      end
  end.

Fixpoint parse_value (fuel : nat) (cs : list ascii) : option (Json * list ascii) :=
  match fuel with
  | O => None
  | S fuel =>
      match skip_ws cs with
      | "n" :: "u" :: "l" :: "l" :: rest => Some (JNull, rest)
      | "t" :: "r" :: "u" :: "e" :: rest => Some (JBool true, rest)
      | "f" :: "a" :: "l" :: "s" :: "e" :: rest => Some (JBool false, rest)
      | "[" :: rest =>
          match skip_ws rest with
          | "]" :: rest' => Some (JArray [], rest')
          | _ => '(vs, rest') ← parse_elements (parse_value fuel) fuel rest;
                 Some (JArray vs, rest')
          end
      | "{" :: rest =>
          match skip_ws rest with
          | "}" :: rest' => Some (JObject [], rest')
          | _ => '(ms, rest') ← parse_members (parse_value fuel) fuel rest;
                 Some (JObject ms, rest')
          end
      | c :: rest =>
          if Ascii.eqb c quote
          then '(s, rest') ← take_string rest; Some (JString s, rest')
          else '(z, rest') ← take_int (c :: rest); Some (JNumber z, rest')
      | [] => None
      end
  end%char.

Definition JSON_parse (s : string) : option Json :=
  let cs := list_ascii_of_string s in
  '(v, rest) ← parse_value (S (length cs)) cs;
  match skip_ws rest with [] => Some v | _ => None end.

(** *** Property reads and conversions *)

Fixpoint assoc (k : string) (fields : list (string * Json)) : Json :=
  match fields with
  | (k', v) :: rest => if k =? k' then v else assoc k rest
  | [] => JUndefined
  end.

Definition get (v : Json) (k : string) : option Json :=
  match v with
  | JUndefined | JNull => None
  | JObject fields => Some (assoc k fields)
  | _ => Some JUndefined
  end.

Definition parseInt (v : Json) : JSNum :=
  match v with
  | JNumber z => Int z
  | JString s =>
      match take_int (skip_ws (list_ascii_of_string s)) with
      | Some (z, _) => Int z
      | None => NaN
      end
  | _ => NaN
  end.

Definition toNumber (v : Json) : JSNum :=
  match v with JNumber z => Int z | _ => NaN end.

Definition String_ (v : Json) : string :=
  match v with
  | JUndefined => "undefined"
  | JNull => "null"
  | JBool true => "true"
  | JBool false => "false"
  | JNumber z => pretty z
  | JString s => s
  | JArray _ | JObject _ => "[object Object]"
  end.

Definition as_task (v : Json) : ParallelTask.t :=
  ParallelTask.mk
    (toNumber (default JUndefined (get v "step_number")))
    (match get v "instruction" with Some (JString s) => s | _ => "" end)
    (toNumber (default JUndefined (get v "estimated_time"))).

Definition as_tasks (v : Json) : option (list ParallelTask.t) :=
  match v with
  | JArray l => Some (map as_task l)
  | _ => None
  end.

Definition platform : Platform :=
  Build_Platform Json atob JSON_parse get parseInt String_ as_tasks.

End Browser.

(** ** Vocabulary of the properties *)

(** Capture and playback never hold the audio device together. *)
Definition exclusive (w : World) : Prop :=
  ~ (isListening (view w) = true /\ isPlaying (view w) = true).

(** A countdown is armed exactly while [timeRemaining] holds a positive
    number of seconds. *)
Definition timerConsistent (w : World) : Prop :=
  match timeRemaining (view w) with
  | Some t => (0 < t)%Z /\ interval w <> None
  | None => interval w = None
  end.

Definition isWarning (e : Effect) : bool :=
  match e with PlaySound src => src =? "/warning.mp3" | _ => false end.

Definition isCompletion (e : Effect) : bool :=
  match e with PlaySound src => src =? "/timer-done.mp3" | _ => false end.

Definition isToast (e : Effect) : bool :=
  match e with Toast _ _ => true | _ => false end.

(** How often the warning cue, the completion cue and a notification
    occur in a trace. *)
Definition warnings (tr : list Effect) : nat := length (filter isWarning tr).
Definition completions (tr : list Effect) : nat := length (filter isCompletion tr).
Definition toasts (tr : list Effect) : nat := length (filter isToast tr).

(** One argument list of [addMessage]. *)
Record Append := mkAppend {
  a_stamp : Stamp.t;
  a_type : Sender;
  a_content : string;
  a_state : option ConversationState;
  a_timer : option TimerData.t
}.

Definition message_of (a : Append) : Message.t :=
  Message.mk (Stamp.id (a_stamp a)) (a_type a) (a_content a)
    (Stamp.timestamp (a_stamp a)) (a_state a) (a_timer a).

Definition appendAll (l : list Append) (w : World) : World :=
  foldl (fun w a =>
    addMessage (a_stamp a) (a_type a) (a_content a) (a_state a) (a_timer a) w) w l.

Definition userMessage (st : Stamp.t) (content : string) : Message.t :=
  Message.mk (Stamp.id st) user content (Stamp.timestamp st) None None.

(** A run of ticks, one [start()] outcome per tick. *)
Definition ticks (oks : list bool) : list Event := map Tick oks.

(** What the commit phase leaves alone. *)
Definition framed (w w' : World) : Prop :=
  messages w' = messages w /\ pending w' = pending w /\ trace w' = trace w
  /\ currentState w' = currentState w /\ mounted w' = mounted w
  /\ recognitionRef w' = recognitionRef w
  /\ isListening (view w') = isListening (view w)
  /\ isPlaying (view w') = isPlaying (view w)
  /\ currentRecipeId (view w') = currentRecipeId (view w)
  /\ textInput (view w') = textInput (view w).

(** Two worlds with the same log, countdown and cue counts. *)
Definition sameSession (w w' : World) : Prop :=
  messages w' = messages w
  /\ timeRemaining (view w') = timeRemaining (view w)
  /\ interval w' = interval w
  /\ warnings (trace w') = warnings (trace w)
  /\ completions (trace w') = completions (trace w)
  /\ toasts (trace w') = toasts (trace w).

Definition timerOf (w : World) : option Z * option Render :=
  (timeRemaining (view w), interval w).

(** The countdown after the commit that follows a handler: untouched when
    the handler left [timeRemaining] alone, re-armed with the new render
    or cleared otherwise. *)
Definition timerAfter (a b : World) : option Z * option Render :=
  if bool_decide (timeRemaining (view a) = timeRemaining (view b))
  then (timeRemaining (view b), interval b)
  else
    match timeRemaining (view b) with
    | Some t => if (t <=? 0)%Z then (None, None) else (Some t, Some (view b))
    | None => (None, None)
    end.

(** No state holds a countdown of zero or fewer seconds. *)
Definition positiveTime (w : World) : Prop :=
  forall t, timeRemaining (view w) = Some t -> (0 < t)%Z.

(** [activeParallelSteps] as the effect on [messages, timeRemaining]
    computes it. *)
Definition parallelStepsOf (w : World) : list JSNum :=
  match last (messages w) with
  | Some m =>
      match Message.timer m ≫= TimerData.parallel_tasks with
      | Some tasks => map ParallelTask.step_number tasks
      | None => if noTime (timeRemaining (view w)) then [] else activeParallelSteps w
      end
  | None => activeParallelSteps w
  end.

(** Whether the request's handler copies [parallel_tasks] into the timer:
    [handleVoiceInput] does, [handleTextSubmit] does not. *)
Definition readsTasks (k : RequestKind) : bool :=
  match k with VoiceInput => true | _ => false end.

(** What a parsed [timer] turns [timeRemaining] into. *)
Definition countdownOf (timer : TimerData.t) : option Z :=
  match TimerData.duration timer with
  | Int d => if (0 <? d)%Z then Some d else None
  | NaN => None
  end.

(** ** Sessions run on the reference browser

    Header values are what the server sends: base64 of the JSON text.
    - [twoSecondsWithTasks]: duration 2, step 3, warning_time 20, one
      parallel task for step 2;
    - [thirtySecondsWarnAt25]: duration 30, step 1, warning_time 25;
    - [tenSecondsWarnAt5]: duration 10, step 1, warning_time 5;
    - [stopSignal]: duration 0, step 3. *)

Module Scenario.
#[local] Existing Instance Browser.platform.

Definition stamp (n : Z) : Stamp.t := Stamp.mk ("m" +:+ pretty n) n.

Definition narration : Response.t :=
  Response.mk (Some asking_servings) None (Some "V2VsY29tZQ==") true None
    "narration.mp3".

Definition cookingReply : Response.t :=
  Response.mk (Some cooking) None (Some "TGV0IHVzIGNvb2s=") true None "cook.mp3".

Definition timerReply (timerData : string) : Response.t :=
  Response.mk (Some cooking) None (Some "VGltZXIgc3RhcnRlZA==") true
    (Some timerData) "timer.mp3".

Definition twoSecondsWithTasks : string :=
  "eyJkdXJhdGlvbiI6MiwidHlwZSI6ImNvb2tpbmciLCJzdGVwIjozLCJ3YXJuaW5nX3RpbWUiOjIwLCJwYXJhbGxlbF90YXNrcyI6W3sic3RlcF9udW1iZXIiOjIsImluc3RydWN0aW9uIjoiQ2hvcCBnYXJsaWMiLCJlc3RpbWF0ZWRfdGltZSI6MTIwfV19".

Definition thirtySecondsWarnAt25 : string :=
  "eyJkdXJhdGlvbiI6MzAsInR5cGUiOiJjb29raW5nIiwic3RlcCI6MSwid2FybmluZ190aW1lIjoyNX0=".




(** The timers the headers decode to. *)
Definition simmerTimer : TimerData.t :=
  TimerData.mk (Int 2) (Int 3) "cooking" None (Int 20)
    (Some [ParallelTask.mk (Int 2) "Chop garlic" (Int 120)]).

Definition halfMinuteTimer : TimerData.t :=
  TimerData.mk (Int 30) (Int 1) "cooking" None (Int 25) None.


(** The component right after mounting: the opening request is out. *)
Definition born : World := mount "recipe-1" true.

(** The narration arrives and plays to its end. *)
Definition opening : list Event :=
  [Settle 0 (Ok narration) (stamp 0); AudioEnded true].

(** The user speaks one utterance; recognition delivers it and ends. *)
Definition say (transcript : string) (n : Z) : list Event :=
  [SpeechResult transcript (stamp n); SpeechEnd].

Definition listening : World := run opening born.

(** One request is out and unsettled. *)
Definition awaiting : World := run (say "start timer" 1) listening.

(** Cooking, a two-second countdown for step 3 running, its
    announcement still playing. *)
Definition simmering : World :=
  dispatch (Settle 0 (Ok (timerReply twoSecondsWithTasks)) (stamp 2)) awaiting.


(** The recipe store reports step 3 completed; the user then asks for
    its timer again. *)
Definition stepThreeDone : World :=
  run (say "start cooking" 1
       ++ [Settle 0 (Ok cookingReply) (stamp 2); AudioEnded true;
           RecipeFetched (Some {[Int 3 := completed]})]
       ++ say "set the timer again" 3) listening.

End Scenario.

(** ** Recipe steps (lines 114-126 and 756-775)

    A step as the recipe endpoint sends it.  Its numbers come out of
    JSON, so they are never NaN; an optional field that is missing is
    [None]. *)

Module StepTimer.
Record t := mk { duration : Z; type : string }.
End StepTimer.

Module Step.
Record t := mk {
  step : Z;
  instruction : string;
  timer : option StepTimer.t;
  parallel_with : option (list Z);
  estimated_time : option Z;
  checkpoints : option (list string);
  warnings : option (list string);
  notes : option (list string)
}.
End Step.

(** [s.parallel_with?.includes(n)] *)
Definition declares (n : Z) (s : Step.t) : bool :=
  match Step.parallel_with s with
  | Some l => bool_decide (n ∈ l)
  | None => false
  end.

(** [steps.filter(s => s.parallel_with?.includes(step.step)).map(s => s.step)] *)
Definition parallelWith (steps : list Step.t) (step : Step.t) : list Z :=
  map Step.step (filter (fun s => declares (Step.step step) s) steps).

(** The callback of [steps.map] that builds [processedSteps].  An array
    is truthy also when empty, so a declared [parallel_with] is kept as
    it is. *)
Definition processStep (steps : list Step.t) (step : Step.t) : Step.t :=
  match Step.parallel_with step with
  | Some _ => step
  | None =>
      let parallelWith := parallelWith steps step in
      Step.mk (Step.step step) (Step.instruction step) (Step.timer step)
        (if (0 <? length parallelWith)%nat then Some parallelWith else None)
        (Step.estimated_time step) (Step.checkpoints step)
        (Step.warnings step) (Step.notes step)
  end.

Definition processedSteps (steps : list Step.t) : list Step.t :=
  map (processStep steps) steps.

(** A processed step differs from its source in [parallel_with] at most. *)
Definition sameStep (s s' : Step.t) : Prop :=
  Step.step s' = Step.step s /\ Step.instruction s' = Step.instruction s
  /\ Step.timer s' = Step.timer s
  /\ Step.estimated_time s' = Step.estimated_time s
  /\ Step.checkpoints s' = Step.checkpoints s
  /\ Step.warnings s' = Step.warnings s /\ Step.notes s' = Step.notes s.

(** ** The clock (lines 153-155, 172, 348 and 1072-1076)

    [TimerDisplay], the dashboard and [formatTime] all split a number of
    seconds with [Math.floor(x / 60)] and [x % 60]; the remainder keeps
    the sign of [x].  They are given here on integers: a duration that
    is NaN shows as NaN in both fields. *)

Module TimerDisplay.
Definition minutes (duration : Z) : Z := (duration / 60)%Z.
Definition seconds (duration : Z) : Z := Z.rem duration 60.
End TimerDisplay.

(** [s.padStart(2, '0')] *)
Definition padStart2 (s : string) : string :=
  match String.length s with
  | 0 => "00"
  | 1 => "0" +:+ s
  | _ => s
  end.

Definition formatTime (seconds : Z) : string :=
  let minutes := (seconds / 60)%Z in
  let remainingSeconds := Z.rem seconds 60 in
  pretty minutes +:+ ":" +:+ padStart2 (pretty remainingSeconds).

(** The seconds field of a time that is not negative. *)
Definition secondsField (r : nat) : string := padStart2 (pretty (Z.of_nat r)).

(** ** The dashboard rows (lines 300-322)

    [statusColor] of the row at [index]; rows are numbered by position,
    [index + 1], not by the step's own number.  [hasTimer] is the
    truthiness of [step.timer?.duration]. *)

Definition statusColor (stepStatuses : gmap JSNum StepStatus) (currentStep : JSNum)
    (timeRemaining : option Z) (activeParallelSteps : list JSNum)
    (step : Step.t) (index : nat) : string :=
  let stepNumber := Int (Z.of_nat index + 1) in
  let status := default not_started (stepStatuses !! stepNumber) in
  let isActive := bool_decide (stepNumber = currentStep) in
  let isParallel := bool_decide (stepNumber ∈ activeParallelSteps) in
  let hasTimer :=
    match Step.timer step with
    | Some t => negb (StepTimer.duration t =? 0)%Z
    | None => false
    end in
  let isTimerRunning := bool_decide (timeRemaining <> None) && hasTimer in
  if bool_decide (status = completed) then "green.50"
  else if bool_decide (status = in_progress) || isTimerRunning && isActive
  then "yellow.50"
  else if isActive || isParallel then "blue.50"
  else "gray.50".

(** The row of the live component. *)
Definition rowColor (w : World) (currentStep : JSNum) (step : Step.t)
    (index : nat) : string :=
  statusColor (stepStatuses w) currentStep (timeRemaining (view w))
    (activeParallelSteps w) step index.

(** ** More sessions and a recipe *)

Module Pantry.
#[local] Existing Instance Browser.platform.

(** A reply that carries a timer and no text. *)
Definition silentTimerReply : Response.t :=
  Response.mk (Some cooking) None None false
    (Some Scenario.thirtySecondsWarnAt25) "beep.mp3".

(** What [handleTextSubmit] reads from [twoSecondsWithTasks]. *)
Definition typedTimer : TimerData.t :=
  TimerData.mk (Int 2) (Int 3) "cooking" None (Int 20) None.

(** The user types a command and submits it; the request is out. *)
Definition typing : World := dispatch (TypeText "start timer") Scenario.listening.

Definition submitted : World := dispatch (SubmitText (Scenario.stamp 1)) typing.

(** One second of the two-second countdown is left. *)
Definition lastSecond : World := dispatch (Tick true) Scenario.simmering.

(** A recipe of three steps in which only the first declares a partner. *)
Definition boil : Step.t :=
  Step.mk 1 "Boil the pasta" (Some (StepTimer.mk 480 "cooking")) (Some [2%Z])
    (Some 600%Z) None None None.

Definition chop : Step.t :=
  Step.mk 2 "Chop the garlic" None None (Some 120%Z) None None None.

Definition fry : Step.t :=
  Step.mk 3 "Fry the garlic" (Some (StepTimer.mk 60 "cooking")) None None None
    None None.

Definition recipe : list Step.t := [boil; chop; fry].

End Pantry.

(** ** Proof automation *)

Ltac framed_done := unfold framed; simpl; repeat split; reflexivity.

Ltac by_cases := repeat case_match; simpl; try reflexivity.

(** * Properties *)

Section Properties.
Context `{Platform}.

(** ** The commit phase *)

Lemma framed_refl w : framed w w.
Proof. framed_done. Qed.

Lemma framed_trans w1 w2 w3 : framed w1 w2 -> framed w2 w3 -> framed w1 w3.
Proof. unfold framed. intros. destruct_and!. repeat split; congruence. Qed.

Lemma parallelStepsEffect_framed w : framed w (parallelStepsEffect w).
Proof. unfold parallelStepsEffect. repeat case_match; framed_done. Qed.

Lemma timerEffect_framed w : framed w (timerEffect w).
Proof. unfold timerEffect. simpl. repeat case_match; framed_done. Qed.

Lemma stepStatusesEffect_framed w : framed w (stepStatusesEffect w).
Proof. unfold stepStatusesEffect. repeat case_match; framed_done. Qed.

Lemma runEffects_framed a b : framed b (runEffects a b).
Proof.
  unfold runEffects.
  set (w0 := set_currentStateRef (currentState b) b).
  assert (framed b w0) as H0 by framed_done.
  set (w1 := if _ : bool then parallelStepsEffect w0 else w0).
  assert (framed w0 w1) as H1
    by (subst w1; case_match; [apply parallelStepsEffect_framed|apply framed_refl]).
  set (w2 := if _ : bool then timerEffect w1 else w1).
  assert (framed w1 w2) as H2
    by (subst w2; case_match; [apply timerEffect_framed|apply framed_refl]).
  case_match; [|by eauto using framed_trans].
  eapply framed_trans; [|apply stepStatusesEffect_framed].
  eauto using framed_trans.
Qed.

Lemma commit_framed a b : framed b (commit a b).
Proof.
  unfold commit. eapply framed_trans; apply runEffects_framed.
Qed.

Lemma commit_messages a b : messages (commit a b) = messages b.
Proof. apply commit_framed. Qed.

(** *** The log through each handler *)

Lemma startListening_messages r ok w :
  messages (startListening r ok w) = messages w.
Proof. unfold startListening. by_cases. Qed.

Lemma stopListening_messages r w : messages (stopListening r w) = messages w.
Proof. unfold stopListening. by_cases. Qed.

Lemma playAudioResponse_messages r a w :
  messages (playAudioResponse r a w) = messages w.
Proof. unfold playAudioResponse. simpl. case_match; [apply stopListening_messages|done]. Qed.

Lemma updateRecipe_messages resp w : messages (updateRecipe resp w) = messages w.
Proof. unfold updateRecipe. by_cases. Qed.

Lemma handleTimerData_messages t w : messages (handleTimerData t w) = messages w.
Proof. unfold handleTimerData, startOrStopTimer. by_cases. Qed.

Lemma transition_messages n w : messages (transition n w) = messages w.
Proof. unfold transition. by_cases. Qed.

Lemma appendAssistant_messages st text n t w :
  messages (appendAssistant st text n t w) =
  messages w ++
    match text with
    | Some content =>
        if truthy content
        then [Message.mk (Stamp.id st) assistant content (Stamp.timestamp st) n t]
        else []
    | None => []
    end.
Proof. unfold appendAssistant. by_cases; by rewrite app_nil_r. Qed.

Lemma applyResponse_messages r b resp st w :
  messages (applyResponse r b resp st w) =
  messages w ++
    match responseText resp with
    | Some content =>
        if truthy content
        then [Message.mk (Stamp.id st) assistant content (Stamp.timestamp st)
                (Response.x_next_state resp) (readTimer b resp)]
        else []
    | None => []
    end.
Proof.
  unfold applyResponse. cbv zeta.
  rewrite playAudioResponse_messages, transition_messages,
    appendAssistant_messages, handleTimerData_messages, updateRecipe_messages.
  done.
Qed.

Lemma getRecipeSummary_settled_messages r res st w :
  messages w `prefix_of` messages (getRecipeSummary_settled r res st w).
Proof.
  destruct res as [|resp]; unfold getRecipeSummary_settled; [done|].
  cbv zeta. rewrite playAudioResponse_messages, appendAssistant_messages.
  apply prefix_app_r. by destruct (Response.x_next_state resp).
Qed.

Lemma settle_messages_prefix i res st w :
  messages w `prefix_of` messages (settle i res st w).
Proof.
  unfold settle. destruct (pending w !! i) as [q|]; [|done].
  set (w' := set_pending _ w).
  change (messages w) with (messages w').
  destruct (kind q).
  - apply getRecipeSummary_settled_messages.
  - destruct res; unfold handleVoiceInput_settled; [done|].
    rewrite applyResponse_messages. by apply prefix_app_r.
  - destruct res; unfold handleTextSubmit_settled; [done|].
    change (messages (setTextInput "" ?x)) with (messages x).
    rewrite applyResponse_messages. by apply prefix_app_r.
Qed.

Lemma onInterval_messages r ok w : messages (onInterval r ok w) = messages w.
Proof.
  unfold onInterval. destruct (timeRemaining (view w)); [|done].
  repeat case_match; simpl; rewrite ?startListening_messages; done.
Qed.

Lemma handle_messages_prefix e w : messages w `prefix_of` messages (handle e w).
Proof.
  destruct e; simpl.
  - unfold onClickMic. repeat case_match;
      rewrite ?stopListening_messages, ?startListening_messages; done.
  - by apply prefix_app_r.
  - unfold onerror. case_match; rewrite ?startListening_messages; done.
  - done.
  - unfold handleAudioEnd. case_match; rewrite ?startListening_messages; done.
  - done.
  - unfold handleTextSubmit. case_match; [done|]. by apply prefix_app_r.
  - apply settle_messages_prefix.
  - case_match; [rewrite onInterval_messages|]; done.
  - unfold onRecipeFetched. by case_match.
Qed.

Lemma dispatch_messages_prefix e w :
  messages w `prefix_of` messages (dispatch e w).
Proof. unfold dispatch. rewrite commit_messages. apply handle_messages_prefix. Qed.

Lemma run_messages_prefix es w : messages w `prefix_of` messages (run es w).
Proof.
  revert w. induction es as [|e es IH]; intros w; simpl.
  - reflexivity.
  - etrans; [apply (dispatch_messages_prefix e)|apply IH].
Qed.

Lemma appendAll_messages l w :
  messages (appendAll l w) = messages w ++ map message_of l.
Proof.
  revert w. induction l as [|a l IH]; intros w; simpl.
  - by rewrite app_nil_r.
  - unfold appendAll in *. simpl. rewrite IH. simpl.
    by rewrite <- app_assoc.
Qed.

(** C8.  The message log is append-only.  After N calls of [addMessage]
    on a freshly mounted component the log holds exactly the N messages,
    in call order; and no sequence of events changes, removes or moves a
    message that is already in the log: the old log is a prefix of the
    new one. *)
Theorem message_log_append_only :
  (forall recipeId speech (l : list Append),
      messages (appendAll l (mount recipeId speech)) = map message_of l
      /\ length (messages (appendAll l (mount recipeId speech))) = length l)
  /\ (forall es w,
      messages w `prefix_of` messages (run es w)
      /\ forall i m, messages w !! i = Some m -> messages (run es w) !! i = Some m).
Proof.
  split.
  - intros recipeId speech l. rewrite appendAll_messages. simpl.
    split; [done | by rewrite length_map].
  - intros es w. split; [apply run_messages_prefix|].
    intros i m Hm. destruct (run_messages_prefix es w) as [k ->].
    by apply lookup_app_l_Some.
Qed.

(** ** The countdown through a commit *)

Lemma parallelStepsEffect_timer w :
  view (parallelStepsEffect w) = view w
  /\ interval (parallelStepsEffect w) = interval w
  /\ activeTimer (parallelStepsEffect w) = activeTimer w.
Proof. unfold parallelStepsEffect. repeat case_match; done. Qed.

Lemma stepStatusesEffect_timer w :
  view (stepStatusesEffect w) = view w
  /\ interval (stepStatusesEffect w) = interval w.
Proof. unfold stepStatusesEffect. repeat case_match; done. Qed.

Lemma timerEffect_timer w :
  timerOf (timerEffect w) =
  match timeRemaining (view w) with
  | Some t => if (t <=? 0)%Z then (None, None) else (Some t, Some (view w))
  | None => (None, None)
  end.
Proof.
  unfold timerEffect, timerOf. simpl.
  destruct (timeRemaining (view w)) as [t|] eqn:E; simpl.
  - destruct (t <=? 0)%Z; simpl; [|by rewrite E]. by destruct (activeTimer w).
  - by destruct (activeTimer w); simpl; rewrite ?E.
Qed.

Lemma runEffects_timer a b : timerOf (runEffects a b) = timerAfter a b.
Proof.
  unfold runEffects, timerAfter.
  set (w0 := set_currentStateRef (currentState b) b).
  set (w1 := if _ : bool then parallelStepsEffect w0 else w0).
  assert (view w1 = view b /\ interval w1 = interval b) as [Hv Hi].
  { subst w1. case_match; [|done].
    destruct (parallelStepsEffect_timer w0) as (-> & -> & _). done. }
  set (w2 := if _ : bool then timerEffect w1 else w1).
  assert (timerOf (if negb (length (messages a) =? length (messages b))%nat
                   then stepStatusesEffect w2 else w2) = timerOf w2) as ->.
  { case_match; [|done]. unfold timerOf.
    by destruct (stepStatusesEffect_timer w2) as (-> & ->). }
  subst w2. case_bool_decide; simpl.
  - unfold timerOf. by rewrite Hv, Hi.
  - rewrite timerEffect_timer, Hv. done.
Qed.

Lemma commit_timer a b : timerOf (commit a b) = timerAfter a b.
Proof.
  unfold commit. rewrite runEffects_timer.
  pose proof (runEffects_timer a b) as E.
  set (x := runEffects a b) in *.
  assert (timeRemaining (view x) = (timerAfter a b).1
          /\ interval x = (timerAfter a b).2) as [E1 E2]
    by (by rewrite <- E).
  unfold timerAfter at 1. rewrite E1, E2. unfold timerAfter.
  repeat case_bool_decide; repeat case_match; simplify_eq/=; done.
Qed.

Lemma runEffects_settled a b :
  positiveTime b -> runEffects b (runEffects a b) = runEffects a b.
Proof.
  intros Hpos.
  pose proof (runEffects_framed a b) as (Hm & _ & _ & Hc & _).
  pose proof (runEffects_timer a b) as Ht.
  assert (timeRemaining (view (runEffects a b)) = timeRemaining (view b)) as Htime.
  { unfold timerOf, timerAfter in Ht. case_bool_decide; [by simplify_eq|].
    destruct (timeRemaining (view b)) as [t|] eqn:E; [|by simplify_eq].
    specialize (Hpos t E). destruct (Z.leb_spec t 0); [lia|by simplify_eq]. }
  assert (currentStateRef (runEffects a b) = currentState b) as Href.
  { unfold runEffects, stepStatusesEffect, timerEffect, parallelStepsEffect.
    simpl. repeat case_match; done. }
  set (x := runEffects a b) in *.
  unfold runEffects at 1. rewrite Hm, Nat.eqb_refl, Htime. simpl.
  rewrite bool_decide_eq_true_2 by done. simpl.
  rewrite Hc. destruct x; simpl in *. by subst.
Qed.

Lemma commit_runEffects a b : positiveTime b -> commit a b = runEffects a b.
Proof. apply runEffects_settled. Qed.

Lemma runEffects_parallel a b :
  activeParallelSteps (runEffects a b) =
  if negb (length (messages a) =? length (messages b))%nat
     || negb (bool_decide (timeRemaining (view a) = timeRemaining (view b)))
  then parallelStepsOf b else activeParallelSteps b.
Proof.
  unfold runEffects, parallelStepsOf.
  unfold stepStatusesEffect, timerEffect, parallelStepsEffect. simpl.
  repeat case_match; simplify_eq/=; done.
Qed.

(** *** One tick *)

Lemma startListening_quiet r ok w :
  messages (startListening r ok w) = messages w
  /\ timeRemaining (view (startListening r ok w)) = timeRemaining (view w)
  /\ interval (startListening r ok w) = interval w
  /\ activeParallelSteps (startListening r ok w) = activeParallelSteps w
  /\ warnings (trace (startListening r ok w)) = warnings (trace w)
  /\ completions (trace (startListening r ok w)) = completions (trace w).
Proof.
  unfold startListening, warnings, completions.
  repeat case_match; simpl; rewrite ?filter_app, ?app_nil_r; done.
Qed.

Lemma warnings_app l1 l2 : warnings (l1 ++ l2) = warnings l1 + warnings l2.
Proof. unfold warnings. by rewrite filter_app, length_app. Qed.

Lemma completions_app l1 l2 :
  completions (l1 ++ l2) = completions l1 + completions l2.
Proof. unfold completions. by rewrite filter_app, length_app. Qed.




Lemma tick_final ok r w :
  interval w = Some r -> timeRemaining (view w) = Some 1%Z ->
  let w' := dispatch (Tick ok) w in
  timeRemaining (view w') = None
  /\ interval w' = None
  /\ messages w' = messages w
  /\ warnings (trace w') = warnings (trace w)
  /\ completions (trace w') = completions (trace w) + 1
  /\ activeParallelSteps w' =
      match last (messages w) with
      | Some m =>
          match Message.timer m ≫= TimerData.parallel_tasks with
          | Some tasks => map ParallelTask.step_number tasks
          | None => []
          end
      | None => activeParallelSteps w
      end.
Proof.
  intros Hi Ht w'. subst w'. unfold dispatch, handle. rewrite Hi.
  unfold onInterval. rewrite Ht. simpl.
  set (w2 := emit _ (emit _ w)).
  destruct (startListening_quiet r ok w2) as (Hm & Htime & Hint & Hp & Hw & Hc).
  set (w3 := startListening r ok w2) in *.
  set (b := setTimeRemaining None w3).
  assert (positiveTime b) as Hpos by (by intros t' [=]).
  rewrite commit_runEffects by done.
  pose proof (runEffects_timer w b) as Et.
  unfold timerOf, timerAfter in Et. simpl in Et. rewrite Ht in Et.
  rewrite bool_decide_eq_false_2 in Et by done.
  injection Et as Et1 Et2.
  destruct (runEffects_framed w b) as (Em & _ & Etr & _).
  rewrite Et1, Et2, Em, Etr, runEffects_parallel. simpl.
  rewrite Ht, Hm, Hw, Hc. simpl.
  rewrite orb_true_r. unfold parallelStepsOf. simpl. rewrite Hm, Hp. simpl.
  rewrite !warnings_app, !completions_app.
  repeat split; try done.
  replace (warnings [PlaySound "/timer-done.mp3"]) with 0 by reflexivity.
  replace (warnings [Toast "Timer Complete!" "Your timer has finished."])
    with 0 by reflexivity.
  lia.
Qed.

(** *** A whole countdown *)


(** ** The steps of a turn *)

Lemma sameSession_refl w : sameSession w w.
Proof. by unfold sameSession. Qed.

Lemma sameSession_trans w1 w2 w3 :
  sameSession w1 w2 -> sameSession w2 w3 -> sameSession w1 w3.
Proof. unfold sameSession. intros. destruct_and!. repeat split; congruence. Qed.

Lemma toasts_app l1 l2 : toasts (l1 ++ l2) = toasts l1 + toasts l2.
Proof. unfold toasts. by rewrite filter_app, length_app. Qed.

Lemma emit_sameSession e w :
  isWarning e = false -> isCompletion e = false -> isToast e = false ->
  sameSession w (emit e w).
Proof.
  intros Hw Hc Ht. unfold sameSession. cbn [emit messages view interval trace].
  rewrite warnings_app, completions_app, toasts_app.
  unfold warnings, completions, toasts. rewrite !filter_cons, !filter_nil.
  rewrite Hw, Hc, Ht. simpl. repeat split; lia.
Qed.

Lemma startListening_sameSession r ok w : sameSession w (startListening r ok w).
Proof.
  unfold startListening. repeat case_match; try apply sameSession_refl.
  eapply sameSession_trans; [by apply (emit_sameSession RecognitionStart)|].
  by unfold sameSession.
Qed.

Lemma stopListening_sameSession r w : sameSession w (stopListening r w).
Proof.
  unfold stopListening. repeat case_match; try apply sameSession_refl.
  eapply sameSession_trans; [by apply (emit_sameSession RecognitionStop)|].
  by unfold sameSession.
Qed.

Lemma playAudioResponse_sameSession r a w :
  sameSession w (playAudioResponse r a w).
Proof.
  unfold playAudioResponse. cbv zeta.
  set (w1 := if isListening r then _ else w).
  assert (sameSession w w1) as H1
    by (subst w1; case_match;
        [apply stopListening_sameSession|apply sameSession_refl]).
  eapply sameSession_trans; [exact H1|].
  eapply sameSession_trans; [by apply (emit_sameSession (PlayResponse a))|].
  by unfold sameSession.
Qed.

Lemma playAudioResponse_playing r a w :
  isPlaying (view (playAudioResponse r a w)) = true
  /\ last (trace (playAudioResponse r a w)) = Some (PlayResponse a).
Proof. unfold playAudioResponse. simpl. by rewrite last_snoc. Qed.

Lemma updateRecipe_sameSession resp w : sameSession w (updateRecipe resp w).
Proof.
  unfold updateRecipe. repeat case_match; try apply sameSession_refl.
  eapply sameSession_trans; [|by apply (emit_sameSession (OnRecipeUpdate _))].
  by unfold sameSession.
Qed.

Lemma transition_sameSession n w : sameSession w (transition n w).
Proof. unfold transition. repeat case_match; by unfold sameSession. Qed.

Lemma handleTimerData_spec timer w :
  let w' := handleTimerData timer w in
  messages w' = messages w /\ interval w' = interval w /\ trace w' = trace w
  /\ timeRemaining (view w') =
     match timer with Some t => countdownOf t | None => timeRemaining (view w) end.
Proof.
  unfold handleTimerData, startOrStopTimer, countdownOf.
  repeat case_match; done.
Qed.

Lemma appendAssistant_spec st text n t w :
  let w' := appendAssistant st text n t w in
  view w' = view w /\ interval w' = interval w /\ trace w' = trace w.
Proof. unfold appendAssistant. repeat case_match; done. Qed.

Lemma applyResponse_spec r b resp st w :
  let w' := applyResponse r b resp st w in
  messages w' =
    messages w ++
      match responseText resp with
      | Some content =>
          if truthy content
          then [Message.mk (Stamp.id st) assistant content (Stamp.timestamp st)
                  (Response.x_next_state resp) (readTimer b resp)]
          else []
      | None => []
      end
  /\ timeRemaining (view w') =
       match readTimer b resp with
       | Some t => countdownOf t
       | None => timeRemaining (view w)
       end
  /\ interval w' = interval w
  /\ warnings (trace w') = warnings (trace w)
  /\ completions (trace w') = completions (trace w)
  /\ toasts (trace w') = toasts (trace w)
  /\ isPlaying (view w') = true
  /\ last (trace w') = Some (PlayResponse (Response.data resp)).
Proof.
  intros w'. split; [apply applyResponse_messages|].
  subst w'. unfold applyResponse. cbv zeta.
  match goal with |- context [playAudioResponse ?r ?a ?x] =>
    destruct (playAudioResponse_sameSession r a x) as (_ & -> & -> & -> & -> & ->);
    destruct (playAudioResponse_playing r a x) as (-> & ->)
  end.
  match goal with |- context [transition ?n ?x] =>
    destruct (transition_sameSession n x) as (_ & -> & -> & -> & -> & ->)
  end.
  match goal with |- context [appendAssistant ?st ?t ?n ?tm ?x] =>
    destruct (appendAssistant_spec st t n tm x) as (-> & -> & ->)
  end.
  match goal with |- context [handleTimerData ?t ?x] =>
    destruct (handleTimerData_spec t x) as (_ & -> & -> & ->)
  end.
  destruct (updateRecipe_sameSession resp w) as (_ & -> & -> & -> & -> & ->).
  done.
Qed.

Lemma settle_response_spec i q resp st w :
  pending w !! i = Some q -> kind q <> Summary ->
  let b := settle i (Ok resp) st w in
  messages b =
    messages w ++
      match responseText resp with
      | Some content =>
          if truthy content
          then [Message.mk (Stamp.id st) assistant content (Stamp.timestamp st)
                  (Response.x_next_state resp)
                  (readTimer (readsTasks (kind q)) resp)]
          else []
      | None => []
      end
  /\ timeRemaining (view b) =
       match readTimer (readsTasks (kind q)) resp with
       | Some t => countdownOf t
       | None => timeRemaining (view w)
       end
  /\ interval b = interval w
  /\ warnings (trace b) = warnings (trace w)
  /\ completions (trace b) = completions (trace w)
  /\ toasts (trace b) = toasts (trace w)
  /\ isPlaying (view b) = true
  /\ last (trace b) = Some (PlayResponse (Response.data resp)).
Proof.
  intros Hq Hk b. subst b. unfold settle. rewrite Hq.
  destruct (kind q) eqn:Ek; [done| |].
  - apply (applyResponse_spec (closure q) true resp st
             (set_pending (delete i (pending w)) w)).
  - apply (applyResponse_spec (closure q) false resp st
             (set_pending (delete i (pending w)) w)).
Qed.

Lemma parseTimerData_unparsable b h :
  JSON_parse (decodeBase64Text h) = None -> parseTimerData b h = None.
Proof. intros E. unfold parseTimerData. by rewrite E. Qed.



(** ** The countdown invariant *)

Lemma countdownOf_positive timer t : countdownOf timer = Some t -> (0 < t)%Z.
Proof.
  unfold countdownOf. destruct (TimerData.duration timer) as [|d]; [done|].
  destruct (Z.ltb_spec 0 d); [|done]. by intros [= <-].
Qed.

Lemma getRecipeSummary_settled_timer r res st w :
  timeRemaining (view (getRecipeSummary_settled r res st w)) = timeRemaining (view w)
  /\ interval (getRecipeSummary_settled r res st w) = interval w.
Proof.
  destruct res as [|resp]; unfold getRecipeSummary_settled; [done|]. cbv zeta.
  match goal with |- context [playAudioResponse ?r ?a ?x] =>
    destruct (playAudioResponse_sameSession r a x) as (_ & -> & -> & _)
  end.
  match goal with |- context [appendAssistant ?st ?t ?n ?tm ?x] =>
    destruct (appendAssistant_spec st t n tm x) as (-> & -> & _)
  end.
  by destruct (Response.x_next_state resp).
Qed.

Lemma settle_timer i res st w :
  interval (settle i res st w) = interval w
  /\ (timeRemaining (view (settle i res st w)) = timeRemaining (view w)
      \/ timeRemaining (view (settle i res st w)) = None
      \/ exists t, timeRemaining (view (settle i res st w)) = Some t /\ (0 < t)%Z).
Proof.
  destruct (pending w !! i) as [q|] eqn:Hq; [|unfold settle; rewrite Hq; auto].
  assert (kind q = Summary \/ kind q <> Summary) as [Ek|Ek]
    by (destruct (kind q); auto).
  - unfold settle. rewrite Hq, Ek.
    destruct (getRecipeSummary_settled_timer (closure q) res st
                (set_pending (delete i (pending w)) w)) as (-> & ->). auto.
  - destruct res as [|resp].
    + unfold settle. rewrite Hq. destruct (kind q); auto.
    + destruct (settle_response_spec i q resp st w Hq Ek) as (_ & -> & -> & _).
      split; [done|]. destruct (readTimer _ resp) as [timer|]; [|auto].
      destruct (countdownOf timer) as [t|] eqn:E; [|auto].
      right; right. exists t. eauto using countdownOf_positive.
Qed.

Lemma onInterval_timer r ok w :
  interval (onInterval r ok w) = interval w
  /\ (timeRemaining (view (onInterval r ok w)) = timeRemaining (view w)
      \/ timeRemaining (view (onInterval r ok w)) = None
      \/ exists t, timeRemaining (view (onInterval r ok w)) = Some t /\ (0 < t)%Z).
Proof.
  unfold onInterval. destruct (timeRemaining (view w)) as [prev|] eqn:E; [|auto].
  cbv zeta. set (w1 := if (prev - 1 =? 20)%Z then _ else w).
  assert (interval w1 = interval w) as Hi by (subst w1; by case_match).
  destruct (Z.leb_spec (prev - 1) 0).
  - cbn [setTimeRemaining with_view view interval timeRemaining].
    destruct (startListening_sameSession r ok
                (emit (Toast "Timer Complete!" "Your timer has finished.")
                   (emit (PlaySound "/timer-done.mp3") w1))) as (_ & _ & -> & _).
    auto.
  - cbn. split; [done|]. right; right. eexists. split; [done|lia].
Qed.

Lemma handle_timer e w :
  interval (handle e w) = interval w
  /\ (timeRemaining (view (handle e w)) = timeRemaining (view w)
      \/ timeRemaining (view (handle e w)) = None
      \/ exists t, timeRemaining (view (handle e w)) = Some t /\ (0 < t)%Z).
Proof.
  destruct e; cbn [handle].
  - unfold onClickMic. cbv zeta. repeat case_match; auto.
    + destruct (stopListening_sameSession (view w) w) as (_ & -> & -> & _); auto.
    + destruct (startListening_sameSession (view w) ok w) as (_ & -> & -> & _); auto.
  - cbn. auto.
  - unfold onerror. cbv zeta. case_match; cbn; auto.
    match goal with |- context [startListening ?r ?ok ?x] =>
      destruct (startListening_sameSession r ok x) as (_ & -> & -> & _)
    end. cbn. auto.
  - cbn. auto.
  - unfold handleAudioEnd. cbv zeta. case_match; cbn; auto.
    match goal with |- context [startListening ?r ?ok ?x] =>
      destruct (startListening_sameSession r ok x) as (_ & -> & -> & _)
    end. cbn. auto.
  - cbn. auto.
  - unfold handleTextSubmit. case_match; cbn; auto.
  - apply settle_timer.
  - destruct (interval w) as [r|] eqn:E; [|auto].
    rewrite <- E. apply onInterval_timer.
  - unfold onRecipeFetched. case_match; cbn; auto.
Qed.

Lemma mount_timerConsistent recipeId speech :
  timerConsistent (mount recipeId speech).
Proof. done. Qed.

Lemma dispatch_timerConsistent e w :
  timerConsistent w -> timerConsistent (dispatch e w).
Proof.
  intros Hw. unfold dispatch.
  destruct (handle_timer e w) as (Hi & Ht).
  pose proof (commit_timer w (handle e w)) as Et.
  unfold timerOf, timerAfter in Et. unfold timerConsistent in *.
  set (b := handle e w) in *.
  case_bool_decide as Eq.
  - injection Et as -> ->. by rewrite <- Eq, Hi.
  - destruct (timeRemaining (view b)) as [t|] eqn:Eb.
    + destruct Ht as [?|[?|(t' & ? & ?)]]; [congruence|done|].
      simplify_eq. destruct (Z.leb_spec t' 0); [lia|].
      injection Et as -> ->. done.
    + by injection Et as -> ->.
Qed.

Lemma run_timerConsistent es w : timerConsistent w -> timerConsistent (run es w).
Proof.
  revert w. induction es as [|e es IH]; intros w Hw; [done|].
  apply IH, dispatch_timerConsistent, Hw.
Qed.

Lemma dispatch_idle_tick ok w :
  interval w = None -> trace (dispatch (Tick ok) w) = trace w
  /\ timerOf (dispatch (Tick ok) w) = timerOf w.
Proof.
  intros Hi. unfold dispatch. cbn [handle]. rewrite Hi.
  destruct (commit_framed w w) as (_ & _ & -> & _).
  rewrite commit_timer. unfold timerAfter, timerOf.
  by rewrite bool_decide_eq_true_2.
Qed.


(** *** Submitting, and a request that fails *)


Lemma commit_unchanged_timer a b :
  timeRemaining (view b) = timeRemaining (view a) -> interval b = interval a ->
  timeRemaining (view (commit a b)) = timeRemaining (view a)
  /\ interval (commit a b) = interval a.
Proof.
  intros Et Ei. pose proof (commit_timer a b) as E.
  unfold timerOf, timerAfter in E.
  rewrite bool_decide_eq_true_2 in E by done.
  injection E as -> ->. done.
Qed.

Lemma dispatch_voice_spec w transcript st :
  let w' := dispatch (SpeechResult transcript st) w in
  messages w' = messages w ++ [userMessage st transcript]
  /\ pending w' = pending w ++ [mkRequest VoiceInput (mounted w)]
  /\ trace w' =
       trace w ++ [Post (currentRecipeId (mounted w)) transcript (currentStateRef w)]
  /\ currentState w' = currentState w
  /\ timeRemaining (view w') = timeRemaining (view w)
  /\ interval w' = interval w.
Proof.
  cbv zeta. unfold dispatch.
  set (b := handle (SpeechResult transcript st) w).
  destruct (commit_framed w b) as (-> & -> & -> & -> & _).
  destruct (commit_unchanged_timer w b) as (-> & ->); done.
Qed.





(** ** Step progress *)

Lemma stepStatusesEffect_congr w1 w2 :
  messages w1 = messages w2 -> stepStatuses w1 = stepStatuses w2 ->
  stepStatuses (stepStatusesEffect w1) = stepStatuses (stepStatusesEffect w2).
Proof.
  intros Em Es. unfold stepStatusesEffect. rewrite Em.
  destruct (last (messages w2) ≫= Message.timer); simpl; by rewrite Es.
Qed.

Lemma parallelStepsEffect_statuses w :
  stepStatuses (parallelStepsEffect w) = stepStatuses w.
Proof. unfold parallelStepsEffect. repeat case_match; done. Qed.

Lemma timerEffect_statuses w : stepStatuses (timerEffect w) = stepStatuses w.
Proof. unfold timerEffect. simpl. repeat case_match; done. Qed.

Lemma runEffects_statuses a b :
  stepStatuses (runEffects a b) =
  if negb (length (messages a) =? length (messages b))%nat
  then stepStatuses (stepStatusesEffect b)
  else stepStatuses b.
Proof.
  unfold runEffects.
  set (w0 := set_currentStateRef (currentState b) b).
  set (w1 := if _ : bool then parallelStepsEffect w0 else w0).
  set (w2 := if _ : bool then timerEffect w1 else w1).
  assert (messages w2 = messages b /\ stepStatuses w2 = stepStatuses b) as [Em Es].
  { assert (messages w1 = messages b /\ stepStatuses w1 = stepStatuses b) as [E1 E2].
    { subst w1. case_match; [|done].
      rewrite parallelStepsEffect_statuses.
      by destruct (parallelStepsEffect_framed w0) as (-> & _). }
    subst w2. case_match; [|done].
    rewrite timerEffect_statuses.
    by destruct (timerEffect_framed w1) as (-> & _). }
  case_match; [|done]. by apply stepStatusesEffect_congr.
Qed.

Lemma commit_statuses a b :
  stepStatuses (commit a b) =
  if negb (length (messages a) =? length (messages b))%nat
  then stepStatuses (stepStatusesEffect b)
  else stepStatuses b.
Proof.
  unfold commit. rewrite runEffects_statuses.
  destruct (runEffects_framed a b) as (-> & _).
  rewrite Nat.eqb_refl. simpl. apply runEffects_statuses.
Qed.

Lemma parseTimerData_no_statuses b h timer :
  parseTimerData b h = Some timer -> TimerData.step_statuses timer = None.
Proof.
  unfold parseTimerData. intros E.
  repeat (apply bind_Some in E as (? & _ & E)). by simplify_eq/=.
Qed.

Lemma readTimer_no_statuses b resp timer :
  readTimer b resp = Some timer -> TimerData.step_statuses timer = None.
Proof.
  unfold readTimer. repeat case_match; try done.
  apply parseTimerData_no_statuses.
Qed.

Lemma stepStatusesEffect_spec w timer :
  last (messages w) ≫= Message.timer = Some timer ->
  statusOf (stepStatusesEffect w) (TimerData.step timer) = in_progress
  /\ (TimerData.step_statuses timer = None ->
      forall n, n <> TimerData.step timer ->
        statusOf (stepStatusesEffect w) n = statusOf w n).
Proof.
  intros E. unfold stepStatusesEffect, statusOf. rewrite E. simpl. split.
  - by rewrite lookup_insert_eq.
  - intros -> n Hn. rewrite lookup_insert_ne by done. simpl.
    by rewrite (left_id_L ∅ (∪)).
Qed.

(** C4, as amended.  When an assistant message with a timer for step N
    is appended, N is marked in_progress whatever its status was, and
    every other step keeps its status; so the status of N does not
    regress exactly when N was not completed before. *)
Theorem timer_message_marks_in_progress w i q resp st timer content :
  pending w !! i = Some q -> kind q <> Summary ->
  readTimer (readsTasks (kind q)) resp = Some timer ->
  responseText resp = Some content -> truthy content = true ->
  let w' := dispatch (Settle i (Ok resp) st) w in
  statusOf w' (TimerData.step timer) = in_progress
  /\ (forall n, n <> TimerData.step timer -> statusOf w' n = statusOf w n)
  /\ (rank (statusOf w (TimerData.step timer))
        <= rank (statusOf w' (TimerData.step timer))
      <-> statusOf w (TimerData.step timer) <> completed).
Proof.
  intros Hq Hk Htimer Htext Htruthy w'.
  destruct (settle_response_spec i q resp st w Hq Hk) as (Hm & _).
  rewrite Htimer, Htext, Htruthy in Hm.
  set (b := settle i (Ok resp) st w) in *.
  assert (stepStatuses b = stepStatuses w) as Hs.
  { subst b. unfold settle. rewrite Hq.
    destruct (kind q); [done| |];
      unfold handleVoiceInput_settled, handleTextSubmit_settled, applyResponse,
        playAudioResponse, stopListening, transition, appendAssistant,
        handleTimerData, startOrStopTimer, updateRecipe;
      repeat case_match; done. }
  assert (forall n, statusOf w' n = statusOf (stepStatusesEffect b) n) as Hw'.
  { intros n. unfold statusOf, w', dispatch. cbn [handle]. fold b.
    rewrite commit_statuses, Hm, length_app. cbn [length].
    by replace (length (messages w) =? length (messages w) + 1)%nat
      with false by (symmetry; apply Nat.eqb_neq; lia). }
  assert (last (messages b) ≫= Message.timer = Some timer) as Hl
    by (by rewrite Hm, last_snoc).
  destruct (stepStatusesEffect_spec b timer Hl) as (Hin & Hout).
  assert (statusOf w' (TimerData.step timer) = in_progress) as Hnew
    by (by rewrite Hw').
  split; [done|]. split.
  - intros n Hn. rewrite Hw', Hout; eauto using readTimer_no_statuses.
    unfold statusOf. by rewrite Hs.
  - rewrite Hnew. destruct (statusOf w (TimerData.step timer)); simpl; split;
      first [done | lia | intros; lia].
Qed.

(** *** A countdown from its start *)


End Properties.

(** * The claims on concrete sessions *)

Section Closures.
Context `{Platform}.

(** [playAudioResponse] stops capture only when its own render saw
    capture running. *)
Lemma playAudioResponse_stale r audio w :
  isListening r = false ->
  isListening (view (playAudioResponse r audio w)) = isListening (view w)
  /\ isPlaying (view (playAudioResponse r audio w)) = true.
Proof. intros Hr. unfold playAudioResponse. by rewrite Hr. Qed.

Lemma playAudioResponse_fresh audio w :
  recognitionRef w = true ->
  isListening (view (playAudioResponse (view w) audio w)) = false
  /\ isPlaying (view (playAudioResponse (view w) audio w)) = true.
Proof.
  intros Hr. unfold playAudioResponse, stopListening. rewrite Hr.
  by destruct (isListening (view w)) eqn:E.
Qed.

(** [startListening] consults the flags of its own render: a closure
    that saw neither flag starts capture whatever is playing now, while
    the latest render never starts it during playback. *)
Lemma startListening_stale r w :
  recognitionRef w = true -> isListening r = false -> isPlaying r = false ->
  isListening (view (startListening r true w)) = true
  /\ isPlaying (view (startListening r true w)) = isPlaying (view w).
Proof. intros Hr Hl Hp. unfold startListening. by rewrite Hr, Hl, Hp. Qed.

Lemma startListening_fresh ok w :
  exclusive w -> exclusive (startListening (view w) ok w).
Proof.
  unfold exclusive, startListening. intros Hw.
  destruct (recognitionRef w), (isListening (view w)) eqn:El,
    (isPlaying (view w)) eqn:Ep, ok; simpl; rewrite ?El, ?Ep; try done;
    intros [? ?]; done.
Qed.

(** Every handler keeps the first render it was mounted with. *)
Lemma dispatch_mounted e w : mounted (dispatch e w) = mounted w.
Proof.
  unfold dispatch. destruct (commit_framed w (handle e w)) as (_ & _ & _ & _ & -> & _).
  destruct e; cbn [handle]; try done.
  - unfold onClickMic, stopListening, startListening. by_cases.
  - unfold onerror, startListening. by_cases.
  - unfold handleAudioEnd, startListening. by_cases.
  - unfold handleTextSubmit. by_cases.
  - unfold settle. destruct (pending w !! i) as [q|]; [|done].
    destruct (kind q), res; try done;
      unfold getRecipeSummary_settled, handleVoiceInput_settled,
        handleTextSubmit_settled, applyResponse, playAudioResponse,
        stopListening, transition, appendAssistant, handleTimerData,
        startOrStopTimer, updateRecipe; by_cases.
  - destruct (interval w); [|done]. unfold onInterval, startListening. by_cases.
  - unfold onRecipeFetched. by_cases.
Qed.

Lemma run_mounted es recipeId speech :
  mounted (run es (mount recipeId speech)) = firstRender recipeId.
Proof.
  assert (forall w, mounted (run es w) = mounted w) as E.
  { induction es as [|e es IH]; intros w; [done|].
    change (run (e :: es) w) with (run es (dispatch e w)).
    by rewrite IH, dispatch_mounted. }
  by rewrite E.
Qed.

(** At the end of playback the handler consults the first render's
    [timeRemaining], which is null: in every reachable world capture is
    started whenever the conversation has left [initial_summary], whether
    or not a countdown is running. *)
Lemma handleAudioEnd_ignores_countdown es recipeId speech ok :
  let w := run es (mount recipeId speech) in
  handle (AudioEnded ok) w =
  if bool_decide (currentStateRef w = initial_summary)
  then setIsPlaying false w
  else startListening (firstRender recipeId) ok (setIsPlaying false w).
Proof.
  intros w. cbn [handle]. unfold handleAudioEnd.
  cbn [setIsPlaying with_view currentStateRef mounted]. subst w.
  rewrite run_mounted. cbn [firstRender timeRemaining noTime].
  rewrite andb_true_r. by case_bool_decide.
Qed.

End Closures.

(** * Further properties of the session *)

Section Sessions.
Context `{Platform}.

Lemma parallelStepsEffect_ref w :
  currentStateRef (parallelStepsEffect w) = currentStateRef w.
Proof. unfold parallelStepsEffect. by_cases. Qed.

Lemma timerEffect_ref w : currentStateRef (timerEffect w) = currentStateRef w.
Proof. unfold timerEffect. by_cases. Qed.

Lemma stepStatusesEffect_ref w :
  currentStateRef (stepStatusesEffect w) = currentStateRef w.
Proof. unfold stepStatusesEffect. by_cases. Qed.

Lemma runEffects_ref a b : currentStateRef (runEffects a b) = currentState b.
Proof.
  unfold runEffects; cbv zeta.
  repeat match goal with
  | |- context [if ?c then _ else _] => destruct c
  end;
  rewrite ?stepStatusesEffect_ref, ?timerEffect_ref, ?parallelStepsEffect_ref;
  reflexivity.
Qed.

Lemma dispatch_ref e w : currentStateRef (dispatch e w) = currentState (dispatch e w).
Proof.
  unfold dispatch, commit. rewrite runEffects_ref.
  destruct (runEffects_framed (handle e w) (runEffects w (handle e w)))
    as (_ & _ & _ & -> & _).
  reflexivity.
Qed.

Lemma run_ref es : forall w,
  currentStateRef w = currentState w ->
  currentStateRef (run es w) = currentState (run es w).
Proof.
  induction es as [|e es IH]; intros w Hw; [exact Hw|].
  apply IH, dispatch_ref.
Qed.

Lemma reachable_ref es recipeId speech :
  currentStateRef (run es (mount recipeId speech)) =
  currentState (run es (mount recipeId speech)).
Proof. apply run_ref. reflexivity. Qed.

(** X1.  In every state the component can reach from mounting, the
    countdown and its interval agree: [timeRemaining] is null exactly
    when no interval is armed, and a countdown that is not null holds a
    positive number of seconds with an interval armed. *)
Theorem countdown_armed_iff_time_remaining es recipeId speech :
  timerConsistent (run es (mount recipeId speech)).
Proof. apply run_timerConsistent, mount_timerConsistent. Qed.


(** ** The conversation state *)

Lemma startListening_state r ok w :
  currentState (startListening r ok w) = currentState w
  /\ currentStateRef (startListening r ok w) = currentStateRef w.
Proof. unfold startListening. by_cases; auto. Qed.

Lemma stopListening_state r w :
  currentState (stopListening r w) = currentState w
  /\ currentStateRef (stopListening r w) = currentStateRef w.
Proof. unfold stopListening. by_cases; auto. Qed.

Lemma playAudioResponse_state r a w :
  currentState (playAudioResponse r a w) = currentState w
  /\ currentStateRef (playAudioResponse r a w) = currentStateRef w.
Proof.
  unfold playAudioResponse. simpl.
  destruct (isListening r); simpl; [apply stopListening_state | auto].
Qed.

Lemma updateRecipe_state resp w :
  currentState (updateRecipe resp w) = currentState w
  /\ currentStateRef (updateRecipe resp w) = currentStateRef w.
Proof. unfold updateRecipe. by_cases; auto. Qed.

Lemma handleTimerData_state t w :
  currentState (handleTimerData t w) = currentState w
  /\ currentStateRef (handleTimerData t w) = currentStateRef w.
Proof. unfold handleTimerData, startOrStopTimer. by_cases; auto. Qed.

Lemma appendAssistant_state st text n t w :
  currentState (appendAssistant st text n t w) = currentState w
  /\ currentStateRef (appendAssistant st text n t w) = currentStateRef w.
Proof. unfold appendAssistant. by_cases; auto. Qed.

Lemma transition_state n w :
  currentStateRef w = currentState w ->
  currentState (transition n w) = default (currentState w) n
  /\ currentStateRef (transition n w) = currentStateRef w.
Proof.
  intros Hw. unfold transition. destruct n as [s|]; simpl; [|auto].
  case_bool_decide; simpl; [subst; auto | auto].
Qed.

Lemma applyResponse_state r b resp st w :
  currentStateRef w = currentState w ->
  currentState (applyResponse r b resp st w) =
    default (currentState w) (Response.x_next_state resp).
Proof.
  intros Hw. unfold applyResponse; cbv zeta.
  rewrite (proj1 (playAudioResponse_state _ _ _)).
  match goal with |- context [transition ?n ?x] =>
    destruct (transition_state n x) as [-> _] end.
  - rewrite (proj1 (appendAssistant_state _ _ _ _ _)),
      (proj2 (appendAssistant_state _ _ _ _ _)),
      (proj1 (handleTimerData_state _ _)), (proj2 (handleTimerData_state _ _)),
      (proj1 (updateRecipe_state _ _)), (proj2 (updateRecipe_state _ _)).
    exact Hw.
  - rewrite (proj1 (appendAssistant_state _ _ _ _ _)),
      (proj1 (handleTimerData_state _ _)), (proj1 (updateRecipe_state _ _)).
    reflexivity.
Qed.

Lemma getRecipeSummary_settled_state r resp st w :
  currentState (getRecipeSummary_settled r (Ok resp) st w) =
    default (currentState w) (Response.x_next_state resp).
Proof.
  unfold getRecipeSummary_settled; cbv zeta.
  rewrite (proj1 (playAudioResponse_state _ _ _)),
    (proj1 (appendAssistant_state _ _ _ _ _)).
  destruct (Response.x_next_state resp); reflexivity.
Qed.

Lemma settle_state i q resp st w :
  pending w !! i = Some q -> currentStateRef w = currentState w ->
  currentState (settle i (Ok resp) st w) =
    default (currentState w) (Response.x_next_state resp).
Proof.
  intros Hq Hw. unfold settle. rewrite Hq.
  destruct (kind q); cbv beta iota zeta.
  - rewrite getRecipeSummary_settled_state. reflexivity.
  - unfold handleVoiceInput_settled.
    rewrite applyResponse_state by exact Hw. reflexivity.
  - unfold handleTextSubmit_settled. cbn [currentState setTextInput with_view].
    rewrite applyResponse_state by exact Hw. reflexivity.
Qed.

Lemma dispatch_state e w : currentState (dispatch e w) = currentState (handle e w).
Proof.
  unfold dispatch. destruct (commit_framed w (handle e w)) as (_ & _ & _ & -> & _).
  reflexivity.
Qed.

(** X2.  A response to any awaited request (opening narration, voice or
    text turn) leaves the conversation in the state named by its
    x-next-state header, or in the state it was in when the header is
    absent; after the commit [currentStateRef] holds that same state. *)
Theorem state_follows_next_state es recipeId speech i q resp st :
  let w := run es (mount recipeId speech) in
  pending w !! i = Some q ->
  let w' := dispatch (Settle i (Ok resp) st) w in
  currentState w' = default (currentState w) (Response.x_next_state resp)
  /\ currentStateRef w' = currentState w'.
Proof.
  intros w Hq w'. split; [|apply dispatch_ref].
  unfold w'. rewrite dispatch_state. simpl.
  apply (settle_state i q); [exact Hq | apply reachable_ref].
Qed.


(** ** Capture after playback and after recognition errors *)

(** X3.  When playback ends, [isPlaying] is cleared and the countdown and
    the log are left alone.  During the opening summary capture is not
    touched; in every other state capture is started whenever recognition
    is available and start() returns, also while a countdown is running,
    because the handler reads the flags of the first render. *)
Theorem audio_end_resumes_capture es recipeId speech ok :
  let w := run es (mount recipeId speech) in
  let w' := dispatch (AudioEnded ok) w in
  isPlaying (view w') = false
  /\ isListening (view w') =
       (if bool_decide (currentState w = initial_summary)
        then isListening (view w)
        else recognitionRef w && ok || isListening (view w))
  /\ timeRemaining (view w') = timeRemaining (view w)
  /\ interval w' = interval w
  /\ messages w' = messages w.
Proof.
  intros w w'.
  assert (Hh : handle (AudioEnded ok) w =
               if bool_decide (currentState w = initial_summary)
               then setIsPlaying false w
               else startListening (firstRender recipeId) ok (setIsPlaying false w)).
  { unfold w. rewrite handleAudioEnd_ignores_countdown.
    rewrite reachable_ref. reflexivity. }
  assert (Hb : isPlaying (view (handle (AudioEnded ok) w)) = false
    /\ isListening (view (handle (AudioEnded ok) w)) =
         (if bool_decide (currentState w = initial_summary)
          then isListening (view w)
          else recognitionRef w && ok || isListening (view w))
    /\ timeRemaining (view (handle (AudioEnded ok) w)) = timeRemaining (view w)
    /\ interval (handle (AudioEnded ok) w) = interval w
    /\ messages (handle (AudioEnded ok) w) = messages w).
  { rewrite Hh. case_bool_decide; [simpl; auto|].
    unfold startListening. simpl.
    destruct (recognitionRef w), ok; simpl; auto. }
  destruct Hb as (Hp & Hl & Ht & Hi & Hm).
  destruct (commit_framed w (handle (AudioEnded ok) w))
    as (Fm & _ & _ & _ & _ & _ & Fl & Fp & _).
  destruct (commit_unchanged_timer w (handle (AudioEnded ok) w) Ht Hi) as [Ct Ci].
  unfold w', dispatch.
  rewrite Fp, Fl, Fm, Ct, Ci. auto.
Qed.

(** X4.  A recognition error never touches the log, playback or the
    countdown.  After 'no-speech' capture is started again without a
    notification (it is on iff recognition is available and start()
    returns); after any other error capture is off and exactly one
    notification is shown. *)
Theorem speech_error_recovery es recipeId speech error ok :
  let w := run es (mount recipeId speech) in
  let w' := dispatch (SpeechError error ok) w in
  messages w' = messages w
  /\ isPlaying (view w') = isPlaying (view w)
  /\ timeRemaining (view w') = timeRemaining (view w)
  /\ if error =? "no-speech"
     then isListening (view w') = recognitionRef w && ok
          /\ toasts (trace w') = toasts (trace w)
     else isListening (view w') = false
          /\ toasts (trace w') = toasts (trace w) + 1.
Proof.
  intros w w'.
  pose proof (run_mounted es recipeId speech) as Hm. fold w in Hm.
  assert (Hb : messages (handle (SpeechError error ok) w) = messages w
    /\ isPlaying (view (handle (SpeechError error ok) w)) = isPlaying (view w)
    /\ timeRemaining (view (handle (SpeechError error ok) w)) = timeRemaining (view w)
    /\ interval (handle (SpeechError error ok) w) = interval w
    /\ if error =? "no-speech"
       then isListening (view (handle (SpeechError error ok) w)) = recognitionRef w && ok
            /\ toasts (trace (handle (SpeechError error ok) w)) = toasts (trace w)
       else isListening (view (handle (SpeechError error ok) w)) = false
            /\ toasts (trace (handle (SpeechError error ok) w)) = toasts (trace w) + 1).
  { simpl. unfold onerror. cbn [mounted setIsListening with_view]. rewrite Hm.
    destruct (error =? "no-speech").
    - unfold startListening. simpl.
      destruct (recognitionRef w), ok; simpl; repeat split; try reflexivity.
      unfold toasts. rewrite filter_app. simpl. rewrite length_app. simpl. lia.
    - simpl. repeat split; try reflexivity.
      unfold toasts. rewrite filter_app, length_app. reflexivity. }
  destruct Hb as (Hmsg & Hp & Ht & Hi & Hrest).
  destruct (commit_framed w (handle (SpeechError error ok) w))
    as (Fm & _ & Ftr & _ & _ & _ & Fl & Fp & _).
  destruct (commit_unchanged_timer w (handle (SpeechError error ok) w) Ht Hi) as [Ct Ci].
  unfold w', dispatch. rewrite Fm, Fp, Fl, Ftr, Ct.
  repeat split; try assumption.
Qed.

(** ** The recipe a request names *)

(** X5.  A voice turn always posts to the recipe the component was
    mounted with, together with the current conversation state, and
    waits with the first render as its closure. *)
Theorem voice_turn_posts_mounted_recipe es recipeId speech transcript st :
  let w := run es (mount recipeId speech) in
  let w' := dispatch (SpeechResult transcript st) w in
  trace w' = trace w ++ [Post recipeId transcript (currentState w)]
  /\ pending w' = pending w ++ [mkRequest VoiceInput (firstRender recipeId)].
Proof.
  intros w w'.
  destruct (dispatch_voice_spec w transcript st) as (_ & Hp & Ht & _).
  unfold w'. rewrite Ht, Hp. unfold w.
  rewrite run_mounted, reachable_ref. split; reflexivity.
Qed.


Lemma stopListening_recipe r w :
  currentRecipeId (view (stopListening r w)) = currentRecipeId (view w)
  /\ trace w `prefix_of` trace (stopListening r w).
Proof.
  unfold stopListening. by_cases; split; try reflexivity.
  apply prefix_app_r. reflexivity.
Qed.

Lemma playAudioResponse_recipe r a w :
  currentRecipeId (view (playAudioResponse r a w)) = currentRecipeId (view w)
  /\ trace w `prefix_of` trace (playAudioResponse r a w).
Proof.
  unfold playAudioResponse. simpl.
  destruct (isListening r); simpl.
  - destruct (stopListening_recipe r w) as [-> Hp]. split; [reflexivity|].
    apply prefix_app_r, Hp.
  - split; [reflexivity|]. apply prefix_app_r. reflexivity.
Qed.

(** ** Where messages come from *)

Lemma settle_appends i res st w :
  messages (settle i res st w) = messages w
  \/ exists resp content timer,
       res = Ok resp /\ responseText resp = Some content
       /\ messages (settle i res st w) =
            messages w ++
              [Message.mk (Stamp.id st) assistant content (Stamp.timestamp st)
                 (Response.x_next_state resp) timer]
       /\ forall t, timer = Some t -> TimerData.step_statuses t = None.
Proof.
  unfold settle. destruct (pending w !! i) as [q|]; [|by left].
  cbv beta iota zeta.
  destruct res as [|resp].
  { left. destruct (kind q); reflexivity. }
  assert (Hk : forall b, readsTasks (kind q) = b -> kind q <> Summary ->
    messages (applyResponse (closure q) b resp st
                (set_pending (delete i (pending w)) w)) = messages w
    \/ exists resp0 content timer,
         Ok resp = Ok resp0 /\ responseText resp0 = Some content
         /\ messages (applyResponse (closure q) b resp st
                        (set_pending (delete i (pending w)) w)) =
              messages w ++
                [Message.mk (Stamp.id st) assistant content (Stamp.timestamp st)
                   (Response.x_next_state resp0) timer]
         /\ forall t, timer = Some t -> TimerData.step_statuses t = None).
  { intros b _ _. rewrite applyResponse_messages. simpl.
    destruct (responseText resp) as [content|] eqn:E;
      [|left; apply app_nil_r].
    destruct (truthy content); [|left; apply app_nil_r].
    right. exists resp, content, (readTimer b resp).
    repeat split; try done. intros t Ht. by eapply readTimer_no_statuses. }
  destruct (kind q) eqn:K.
  - unfold getRecipeSummary_settled; cbv zeta.
    rewrite playAudioResponse_messages, appendAssistant_messages.
    assert (Hs : forall x : World,
      messages match Response.x_next_state resp with
               | Some s => setCurrentState s x | None => x end = messages x)
      by (intros x; destruct (Response.x_next_state resp); reflexivity).
    rewrite Hs. simpl.
    destruct (responseText resp) as [content|] eqn:E;
      [|left; apply app_nil_r].
    destruct (truthy content); [|left; apply app_nil_r].
    right. exists resp, content, None. repeat split; done.
  - unfold handleVoiceInput_settled. by apply Hk.
  - unfold handleTextSubmit_settled. cbn [messages setTextInput with_view].
    by apply Hk.
Qed.

Lemma handle_appends e w :
  messages (handle e w) = messages w
  \/ exists m,
       messages (handle e w) = messages w ++ [m]
       /\ (forall t, Message.timer m = Some t -> TimerData.step_statuses t = None)
       /\ match e with
          | SpeechResult transcript st => m = userMessage st transcript
          | SubmitText st => m = userMessage st (textInput (view w))
          | Settle _ (Ok resp) st =>
              Message.type m = assistant
              /\ Message.id m = Stamp.id st
              /\ Message.state m = Response.x_next_state resp
              /\ responseText resp = Some (Message.content m)
          | _ => False
          end.
Proof.
  destruct e; simpl.
  - left. unfold onClickMic. cbv zeta.
    destruct (isPlaying (view w)); [reflexivity|].
    destruct (isListening (view w));
      [apply stopListening_messages | apply startListening_messages].
  - right. eexists. split; [reflexivity|]. split; [|reflexivity]. done.
  - left. unfold onerror. cbv zeta.
    destruct (error =? "no-speech"); [|reflexivity].
    rewrite startListening_messages. reflexivity.
  - by left.
  - left. unfold handleAudioEnd. cbv zeta.
    match goal with |- context [if ?c then _ else _] => destruct c end;
      [|reflexivity].
    rewrite startListening_messages. reflexivity.
  - by left.
  - unfold handleTextSubmit. destruct (isBlank (textInput (view w))); [by left|].
    right. eexists. split; [reflexivity|]. split; [|reflexivity]. done.
  - destruct (settle_appends i res st w) as [E|(resp & content & timer & -> & Hc & E & Ht)];
      [by left|].
    right. eexists. split; [exact E|]. simpl. eauto.
  - left. destruct (interval w); [apply onInterval_messages | reflexivity].
  - left. unfold onRecipeFetched. by destruct step_statuses.
Qed.

(** X6.  One event appends at most one message.  A user message comes
    only from a recognised utterance or a submitted text and is exactly
    that text without state or timer; an assistant message comes only
    from a successful response and carries its text and next state;
    clicks, recognition errors, playback, ticks and fetches never write
    to the log. *)
Theorem messages_come_from_turns e w :
  let w' := dispatch e w in
  messages w' = messages w
  \/ exists m,
       messages w' = messages w ++ [m]
       /\ match e with
          | SpeechResult transcript st => m = userMessage st transcript
          | SubmitText st => m = userMessage st (textInput (view w))
          | Settle _ (Ok resp) st =>
              Message.type m = assistant
              /\ Message.id m = Stamp.id st
              /\ Message.state m = Response.x_next_state resp
              /\ responseText resp = Some (Message.content m)
          | _ => False
          end.
Proof.
  intros w'. unfold w', dispatch. rewrite commit_messages.
  destruct (handle_appends e w) as [E|(m & E & _ & Hm)]; [by left|].
  right. exists m. split; assumption.
Qed.

(** ** Step statuses *)

Lemma startListening_statuses r ok w :
  stepStatuses (startListening r ok w) = stepStatuses w
  /\ activeParallelSteps (startListening r ok w) = activeParallelSteps w.
Proof. unfold startListening. by_cases; auto. Qed.

Lemma stopListening_statuses r w :
  stepStatuses (stopListening r w) = stepStatuses w
  /\ activeParallelSteps (stopListening r w) = activeParallelSteps w.
Proof. unfold stopListening. by_cases; auto. Qed.

Lemma playAudioResponse_statuses r a w :
  stepStatuses (playAudioResponse r a w) = stepStatuses w
  /\ activeParallelSteps (playAudioResponse r a w) = activeParallelSteps w.
Proof.
  unfold playAudioResponse. simpl.
  destruct (isListening r); [apply stopListening_statuses | auto].
Qed.

Lemma updateRecipe_statuses resp w :
  stepStatuses (updateRecipe resp w) = stepStatuses w
  /\ activeParallelSteps (updateRecipe resp w) = activeParallelSteps w.
Proof. unfold updateRecipe. by_cases; auto. Qed.

Lemma handleTimerData_statuses t w :
  stepStatuses (handleTimerData t w) = stepStatuses w
  /\ activeParallelSteps (handleTimerData t w) = activeParallelSteps w.
Proof. unfold handleTimerData, startOrStopTimer. by_cases; auto. Qed.

Lemma appendAssistant_statuses st text n t w :
  stepStatuses (appendAssistant st text n t w) = stepStatuses w
  /\ activeParallelSteps (appendAssistant st text n t w) = activeParallelSteps w.
Proof. unfold appendAssistant. by_cases; auto. Qed.

Lemma transition_statuses n w :
  stepStatuses (transition n w) = stepStatuses w
  /\ activeParallelSteps (transition n w) = activeParallelSteps w.
Proof. unfold transition. by_cases; auto. Qed.

Lemma applyResponse_statuses r b resp st w :
  stepStatuses (applyResponse r b resp st w) = stepStatuses w
  /\ activeParallelSteps (applyResponse r b resp st w) = activeParallelSteps w.
Proof.
  unfold applyResponse; cbv zeta.
  split.
  - rewrite (proj1 (playAudioResponse_statuses _ _ _)),
      (proj1 (transition_statuses _ _)), (proj1 (appendAssistant_statuses _ _ _ _ _)),
      (proj1 (handleTimerData_statuses _ _)), (proj1 (updateRecipe_statuses _ _)).
    reflexivity.
  - rewrite (proj2 (playAudioResponse_statuses _ _ _)),
      (proj2 (transition_statuses _ _)), (proj2 (appendAssistant_statuses _ _ _ _ _)),
      (proj2 (handleTimerData_statuses _ _)), (proj2 (updateRecipe_statuses _ _)).
    reflexivity.
Qed.

Lemma getRecipeSummary_settled_statuses r res st w :
  stepStatuses (getRecipeSummary_settled r res st w) = stepStatuses w
  /\ activeParallelSteps (getRecipeSummary_settled r res st w) = activeParallelSteps w.
Proof.
  unfold getRecipeSummary_settled. destruct res as [|resp]; [auto|]. cbv zeta.
  rewrite (proj1 (playAudioResponse_statuses _ _ _)),
    (proj2 (playAudioResponse_statuses _ _ _)),
    (proj1 (appendAssistant_statuses _ _ _ _ _)),
    (proj2 (appendAssistant_statuses _ _ _ _ _)).
  destruct (Response.x_next_state resp); auto.
Qed.

Lemma settle_statuses i res st w :
  stepStatuses (settle i res st w) = stepStatuses w
  /\ activeParallelSteps (settle i res st w) = activeParallelSteps w.
Proof.
  unfold settle. destruct (pending w !! i) as [q|]; [|auto].
  cbv beta iota zeta. destruct (kind q).
  - rewrite (proj1 (getRecipeSummary_settled_statuses _ _ _ _)),
      (proj2 (getRecipeSummary_settled_statuses _ _ _ _)). auto.
  - destruct res; [auto|]. unfold handleVoiceInput_settled.
    rewrite (proj1 (applyResponse_statuses _ _ _ _ _)),
      (proj2 (applyResponse_statuses _ _ _ _ _)). auto.
  - destruct res; [auto|]. unfold handleTextSubmit_settled.
    cbn [stepStatuses activeParallelSteps setTextInput with_view].
    rewrite (proj1 (applyResponse_statuses _ _ _ _ _)),
      (proj2 (applyResponse_statuses _ _ _ _ _)). auto.
Qed.

Lemma onInterval_statuses r ok w :
  stepStatuses (onInterval r ok w) = stepStatuses w
  /\ activeParallelSteps (onInterval r ok w) = activeParallelSteps w.
Proof.
  unfold onInterval. destruct (timeRemaining (view w)); [|auto]. cbv zeta.
  match goal with |- context [if ?c then emit ?a (emit ?b w) else w] =>
    set (w1 := if c then emit a (emit b w) else w);
    assert (H1 : stepStatuses w1 = stepStatuses w
                 /\ activeParallelSteps w1 = activeParallelSteps w)
      by (subst w1; destruct c; auto)
  end.
  destruct H1 as [H1 H2].
  destruct (_ <=? 0)%Z; simpl; [|auto].
  rewrite (proj1 (startListening_statuses _ _ _)),
    (proj2 (startListening_statuses _ _ _)). auto.
Qed.

Lemma handle_statuses e w :
  (forall m, e <> RecipeFetched m) ->
  stepStatuses (handle e w) = stepStatuses w.
Proof.
  intros He. destruct e; simpl.
  - unfold onClickMic. cbv zeta. destruct (isPlaying (view w)); [reflexivity|].
    destruct (isListening (view w));
      [apply stopListening_statuses | apply startListening_statuses].
  - reflexivity.
  - unfold onerror. cbv zeta. destruct (error =? "no-speech"); [|reflexivity].
    rewrite (proj1 (startListening_statuses _ _ _)). reflexivity.
  - reflexivity.
  - unfold handleAudioEnd. cbv zeta.
    match goal with |- context [if ?c then _ else _] => destruct c end;
      [|reflexivity].
    rewrite (proj1 (startListening_statuses _ _ _)). reflexivity.
  - reflexivity.
  - unfold handleTextSubmit. destruct (isBlank (textInput (view w))); reflexivity.
  - apply settle_statuses.
  - destruct (interval w); [apply onInterval_statuses | reflexivity].
  - by destruct (He step_statuses).
Qed.

Lemma dispatch_status e w n :
  (forall m, e <> RecipeFetched m) ->
  statusOf (dispatch e w) n = statusOf w n
  \/ statusOf (dispatch e w) n = in_progress.
Proof.
  intros He. unfold statusOf at 1 3, dispatch. rewrite commit_statuses.
  destruct (handle_appends e w) as [E|(m & E & Hm & _)].
  - rewrite E, Nat.eqb_refl. simpl. rewrite handle_statuses by exact He.
    by left.
  - rewrite E, length_app. simpl.
    replace (length (messages w) =? length (messages w) + 1)%nat with false
      by (symmetry; apply Nat.eqb_neq; lia).
    simpl.
    destruct (Message.timer m) as [timer|] eqn:T.
    + assert (L : last (messages (handle e w)) ≫= Message.timer = Some timer)
        by (rewrite E, last_snoc; exact T).
      destruct (stepStatusesEffect_spec _ _ L) as [Hin Hout].
      destruct (decide (n = TimerData.step timer)) as [->|Hn].
      * right. exact Hin.
      * left. unfold statusOf in Hout. rewrite (Hout (Hm _ eq_refl) n Hn).
        rewrite handle_statuses by exact He. reflexivity.
    + left. unfold stepStatusesEffect. rewrite E, last_snoc. simpl. rewrite T.
      rewrite handle_statuses by exact He. reflexivity.
Qed.

(** X7.  Apart from the recipe fetch, which installs the server's
    statuses, no event changes the status of a step to anything but
    in_progress: a step is never marked completed by the component
    itself, and a step in progress stays in progress. *)
Theorem client_never_completes_a_step e w n :
  (forall m, e <> RecipeFetched m) ->
  let w' := dispatch e w in
  (statusOf w' n = statusOf w n \/ statusOf w' n = in_progress)
  /\ (statusOf w' n = completed -> statusOf w n = completed)
  /\ (statusOf w n = in_progress -> statusOf w' n = in_progress).
Proof.
  intros He w'. pose proof (dispatch_status e w n He) as Hs. fold w' in Hs.
  split; [exact Hs|]. split; intros Hc; destruct Hs as [Hs|Hs]; congruence.
Qed.


(** ** The end of a countdown *)

(** X8.  The tick that takes the countdown from one second to zero
    clears [timeRemaining] and the interval, plays the completion cue
    once and shows one notification, without the warning cue and without
    a message.  It starts capture iff recognition is available, start()
    returns and the render that armed the interval was neither listening
    nor playing; later ticks do nothing. *)
Theorem countdown_completion ok r w :
  interval w = Some r -> timeRemaining (view w) = Some 1%Z ->
  let w' := dispatch (Tick ok) w in
  timeRemaining (view w') = None
  /\ interval w' = None
  /\ messages w' = messages w
  /\ completions (trace w') = completions (trace w) + 1
  /\ warnings (trace w') = warnings (trace w)
  /\ toasts (trace w') = toasts (trace w) + 1
  /\ isListening (view w') =
       (recognitionRef w && negb (isListening r) && negb (isPlaying r) && ok
        || isListening (view w))
  /\ isPlaying (view w') = isPlaying (view w)
  /\ forall ok', trace (dispatch (Tick ok') w') = trace w'
                 /\ timeRemaining (view (dispatch (Tick ok') w')) = None.
Proof.
  intros Hi Ht w'.
  destruct (tick_final ok r w Hi Ht) as (T1 & T2 & T3 & T4 & T5 & _).
  fold w' in T1, T2, T3, T4, T5.
  assert (Hb : toasts (trace (handle (Tick ok) w)) = toasts (trace w) + 1
    /\ isListening (view (handle (Tick ok) w)) =
         (recognitionRef w && negb (isListening r) && negb (isPlaying r) && ok
          || isListening (view w))
    /\ isPlaying (view (handle (Tick ok) w)) = isPlaying (view w)).
  { simpl. rewrite Hi. unfold onInterval. rewrite Ht. simpl.
    unfold startListening. simpl.
    destruct (recognitionRef w), (isListening r), (isPlaying r), ok; simpl;
      rewrite ?toasts_app; simpl;
      repeat split; try reflexivity;
      try (destruct (isListening (view w)); reflexivity);
      unfold toasts; simpl; lia. }
  destruct Hb as (B1 & B2 & B3).
  destruct (commit_framed w (handle (Tick ok) w))
    as (_ & _ & Ftr & _ & _ & _ & Fl & Fp & _).
  repeat split; try assumption.
  - unfold w', dispatch. rewrite Ftr. exact B1.
  - unfold w', dispatch. rewrite Fl. exact B2.
  - unfold w', dispatch. rewrite Fp. exact B3.
  - apply dispatch_idle_tick. exact T2.
  - destruct (dispatch_idle_tick ok' w' T2) as [_ E].
    unfold timerOf in E. injection E as E _. rewrite E. exact T1.
Qed.

(** ** Parallel steps *)

Lemma parseTimerData_no_tasks h timer :
  parseTimerData false h = Some timer -> TimerData.parallel_tasks timer = None.
Proof.
  unfold parseTimerData. intros E.
  repeat (apply bind_Some in E as (? & ? & E)). by simplify_eq/=.
Qed.

Lemma readTimer_no_tasks resp timer :
  readTimer false resp = Some timer -> TimerData.parallel_tasks timer = None.
Proof.
  unfold readTimer. repeat case_match; try done.
  apply parseTimerData_no_tasks.
Qed.

Lemma settle_timer_message i q resp st w timer content :
  pending w !! i = Some q -> kind q <> Summary ->
  readTimer (readsTasks (kind q)) resp = Some timer ->
  responseText resp = Some content -> truthy content = true ->
  let b := settle i (Ok resp) st w in
  last (messages b) ≫= Message.timer = Some timer
  /\ messages b <> messages w
  /\ length (messages b) = S (length (messages w))
  /\ timeRemaining (view b) = countdownOf timer
  /\ positiveTime b
  /\ activeParallelSteps b = activeParallelSteps w
  /\ stepStatuses b = stepStatuses w.
Proof.
  intros Hq Hk Ht Hc Htr b.
  destruct (settle_response_spec i q resp st w Hq Hk) as (Em & Et & _).
  fold b in Em, Et. rewrite Hc, Htr, Ht in Em. rewrite Ht in Et.
  split; [rewrite Em, last_snoc; reflexivity|].
  split; [rewrite Em; intros E; apply (f_equal length) in E;
          rewrite length_app in E; simpl in E; lia|].
  split; [rewrite Em, length_app; simpl; lia|].
  split; [exact Et|].
  split; [intros t E; rewrite Et in E; by eapply countdownOf_positive|].
  split; apply settle_statuses.
Qed.

Lemma dispatch_timer_parallel i q resp st w timer content :
  pending w !! i = Some q -> kind q <> Summary ->
  readTimer (readsTasks (kind q)) resp = Some timer ->
  responseText resp = Some content -> truthy content = true ->
  activeParallelSteps (dispatch (Settle i (Ok resp) st) w) =
  match TimerData.parallel_tasks timer with
  | Some tasks => map ParallelTask.step_number tasks
  | None => if positive (TimerData.duration timer) then activeParallelSteps w else []
  end.
Proof.
  intros Hq Hk Ht Hc Htr.
  destruct (settle_timer_message i q resp st w timer content Hq Hk Ht Hc Htr)
    as (L & _ & Hlen & Et & Hpos & Hp & _).
  unfold dispatch. cbn [handle].
  rewrite commit_runEffects by exact Hpos.
  rewrite runEffects_parallel, Hlen.
  replace (length (messages w) =? S (length (messages w)))%nat with false
    by (symmetry; apply Nat.eqb_neq; lia).
  simpl. unfold parallelStepsOf.
  destruct (last (messages (settle i (Ok resp) st w))) as [m|] eqn:Lm; [|done].
  simpl in L. rewrite L. simpl.
  destruct (TimerData.parallel_tasks timer); [reflexivity|].
  rewrite Et, Hp. unfold countdownOf, positive.
  destruct (TimerData.duration timer) as [|d]; [reflexivity|].
  destruct (0 <? d)%Z eqn:D; simpl; [|reflexivity].
  apply Z.ltb_lt in D. rewrite (proj2 (Z.eqb_neq d 0)) by lia. reflexivity.
Qed.

(** X9.  When a voice turn's response carries a timer with
    parallel_tasks and a text, the active parallel steps become exactly
    the step numbers of those tasks, in order. *)
Theorem voice_timer_sets_parallel_steps w i q resp st timer content tasks :
  pending w !! i = Some q -> kind q = VoiceInput ->
  readTimer true resp = Some timer ->
  responseText resp = Some content -> truthy content = true ->
  TimerData.parallel_tasks timer = Some tasks ->
  activeParallelSteps (dispatch (Settle i (Ok resp) st) w) =
  map ParallelTask.step_number tasks.
Proof.
  intros Hq Hk Ht Hc Htr Hp.
  rewrite (dispatch_timer_parallel i q resp st w timer content); try assumption.
  - rewrite Hp. reflexivity.
  - rewrite Hk. done.
  - rewrite Hk. exact Ht.
Qed.

(** X10.  A timer that arrives in answer to typed text never carries
    parallel tasks, whatever the header holds: the appended message has
    the timer without them, and the active parallel steps are kept when
    the timer starts a countdown and emptied when it is a stop signal. *)
Theorem text_timer_drops_parallel_tasks w i q resp st timer content :
  pending w !! i = Some q -> kind q = TextSubmit ->
  readTimer false resp = Some timer ->
  responseText resp = Some content -> truthy content = true ->
  let w' := dispatch (Settle i (Ok resp) st) w in
  TimerData.parallel_tasks timer = None
  /\ last (messages w') ≫= Message.timer = Some timer
  /\ activeParallelSteps w' =
       (if positive (TimerData.duration timer) then activeParallelSteps w else []).
Proof.
  intros Hq Hk Ht Hc Htr w'.
  pose proof (readTimer_no_tasks resp timer Ht) as Hn.
  assert (Hk' : kind q <> Summary) by (rewrite Hk; done).
  assert (Ht' : readTimer (readsTasks (kind q)) resp = Some timer)
    by (rewrite Hk; exact Ht).
  split; [exact Hn|]. split.
  - unfold w', dispatch. rewrite commit_messages.
    apply (settle_timer_message i q resp st w timer content); assumption.
  - unfold w'.
    rewrite (dispatch_timer_parallel i q resp st w timer content); try assumption.
    rewrite Hn. reflexivity.
Qed.


(** ** The opening narration *)

Lemma getRecipeSummary_settled_recipe r res st w :
  currentRecipeId (view (getRecipeSummary_settled r res st w)) =
    currentRecipeId (view w).
Proof.
  unfold getRecipeSummary_settled. destruct res as [|resp]; [reflexivity|].
  cbv zeta. rewrite (proj1 (playAudioResponse_recipe _ _ _)).
  match goal with |- context [appendAssistant ?s ?t ?n ?tm ?x] =>
    destruct (appendAssistant_spec s t n tm x) as (-> & _) end.
  destruct (Response.x_next_state resp); reflexivity.
Qed.

(** X11.  The response to the opening request appends at most one
    assistant message, which never has a timer, and never changes the
    countdown, the recipe id or the step statuses, whatever headers it
    carries.  When the request fails, one notification is shown and the
    conversation state and [isPlaying] stay as they were. *)
Theorem opening_narration_sets_no_timer w i q res st :
  pending w !! i = Some q -> kind q = Summary ->
  let w' := dispatch (Settle i res st) w in
  messages w' =
    messages w ++
      match res with
      | Ok resp =>
          match responseText resp with
          | Some content =>
              if truthy content
              then [Message.mk (Stamp.id st) assistant content (Stamp.timestamp st)
                      (Response.x_next_state resp) None]
              else []
          | None => []
          end
      | Failed => []
      end
  /\ timeRemaining (view w') = timeRemaining (view w)
  /\ interval w' = interval w
  /\ currentRecipeId (view w') = currentRecipeId (view w)
  /\ stepStatuses w' = stepStatuses w
  /\ (res = Failed ->
      toasts (trace w') = toasts (trace w) + 1
      /\ currentState w' = currentState w
      /\ isPlaying (view w') = isPlaying (view w)).
Proof.
  intros Hq Hk w'.
  assert (Hh : handle (Settle i res st) w =
               getRecipeSummary_settled (closure q) res st
                 (set_pending (delete i (pending w)) w)).
  { simpl. unfold settle. rewrite Hq. cbv beta iota zeta. rewrite Hk. reflexivity. }
  set (w0 := set_pending (delete i (pending w)) w) in Hh.
  assert (Hm : messages (handle (Settle i res st) w) =
    messages w ++
      match res with
      | Ok resp =>
          match responseText resp with
          | Some content =>
              if truthy content
              then [Message.mk (Stamp.id st) assistant content (Stamp.timestamp st)
                      (Response.x_next_state resp) None]
              else []
          | None => []
          end
      | Failed => []
      end).
  { rewrite Hh. unfold getRecipeSummary_settled.
    destruct res as [|resp]; [simpl; by rewrite app_nil_r|]. cbv zeta.
    rewrite playAudioResponse_messages, appendAssistant_messages.
    destruct (Response.x_next_state resp); reflexivity. }
  destruct (getRecipeSummary_settled_timer (closure q) res st w0) as [Ht Hi].
  rewrite <- Hh in Ht, Hi. change (timeRemaining (view w0)) with (timeRemaining (view w)) in Ht.
  change (interval w0) with (interval w) in Hi.
  destruct (commit_unchanged_timer w _ Ht Hi) as [Ct Ci].
  destruct (commit_framed w (handle (Settle i res st) w))
    as (Fm & _ & Ftr & Fs & _ & _ & _ & Fp & Fr & _).
  split; [unfold w', dispatch; rewrite Fm; exact Hm|].
  split; [exact Ct|]. split; [exact Ci|].
  split; [unfold w', dispatch; rewrite Fr, Hh;
          rewrite getRecipeSummary_settled_recipe; reflexivity|].
  split.
  - unfold w', dispatch. rewrite commit_statuses, Hm.
    assert (Hst : stepStatuses (handle (Settle i res st) w) = stepStatuses w)
      by apply settle_statuses.
    destruct (length (messages w) =? _)%nat eqn:El; cbn [negb]; [exact Hst|].
    unfold stepStatusesEffect. rewrite Hm.
    destruct res as [|resp]; [by rewrite app_nil_r, Nat.eqb_refl in El|].
    destruct (responseText resp) as [content|];
      [|by rewrite app_nil_r, Nat.eqb_refl in El].
    destruct (truthy content); [|by rewrite app_nil_r, Nat.eqb_refl in El].
    rewrite last_snoc. simpl. exact Hst.
  - intros ->. unfold w', dispatch. rewrite Ftr, Fs, Fp, Hh. simpl.
    rewrite toasts_app. repeat split; reflexivity.
Qed.

(** ** The microphone button *)

Lemma dispatch_flags e w :
  isListening (view (dispatch e w)) = isListening (view (handle e w))
  /\ isPlaying (view (dispatch e w)) = isPlaying (view (handle e w))
  /\ recognitionRef (dispatch e w) = recognitionRef (handle e w)
  /\ trace (dispatch e w) = trace (handle e w).
Proof.
  unfold dispatch.
  destruct (commit_framed w (handle e w))
    as (_ & _ & Ftr & _ & _ & Fr & Fl & Fp & _).
  auto.
Qed.

(** X12.  The microphone button never makes capture and playback
    overlap.  While a response is playing a click does nothing; otherwise,
    with recognition available and start() returning, a click flips
    [isListening] and a second click flips it back. *)
Theorem mic_button_toggles_capture ok w :
  let w' := dispatch (ClickMic ok) w in
  (exclusive w -> exclusive w')
  /\ (isPlaying (view w) = true ->
      isListening (view w') = isListening (view w) /\ trace w' = trace w)
  /\ (isPlaying (view w) = false -> recognitionRef w = true -> ok = true ->
      isListening (view w') = negb (isListening (view w))
      /\ isPlaying (view w') = false
      /\ isListening (view (dispatch (ClickMic ok) w')) = isListening (view w)).
Proof.
  intros w'.
  destruct (dispatch_flags (ClickMic ok) w) as (Fl & Fp & Fr & Ftr).
  fold w' in Fl, Fp, Fr, Ftr.
  split; [|split].
  - unfold exclusive. rewrite Fl, Fp. simpl. unfold onClickMic. cbv zeta.
    intros Hw. destruct (isPlaying (view w)) eqn:Ep; [rewrite Ep; exact Hw|].
    destruct (isListening (view w)) eqn:El.
    + unfold stopListening. rewrite El.
      destruct (recognitionRef w); simpl; rewrite ?Ep, ?El; intros [? ?]; done.
    + apply startListening_fresh. unfold exclusive. rewrite Ep, El. exact Hw.
  - intros Ep. rewrite Fl, Ftr. simpl. unfold onClickMic. cbv zeta.
    rewrite Ep. auto.
  - intros Ep Hr ->.
    assert (H1 : isListening (view w') = negb (isListening (view w))
                 /\ isPlaying (view w') = false).
    { rewrite Fl, Fp. simpl. unfold onClickMic. cbv zeta. rewrite Ep.
      unfold stopListening, startListening. rewrite Hr, Ep.
      destruct (isListening (view w)); simpl; auto. }
    destruct H1 as [H1 H2]. split; [exact H1|]. split; [exact H2|].
    assert (Hr' : recognitionRef w' = true).
    { rewrite Fr. simpl. unfold onClickMic. cbv zeta. rewrite Ep.
      unfold stopListening, startListening. rewrite Hr, Ep.
      destruct (isListening (view w)); simpl; exact Hr. }
    destruct (dispatch_flags (ClickMic true) w') as (-> & _).
    cbn [handle]. unfold onClickMic. cbv zeta. rewrite H2.
    unfold stopListening, startListening. rewrite Hr', H1, H2.
    destruct (isListening (view w)); reflexivity.
Qed.

End Sessions.

(** ** Responses without text, the text field, blank input *)

Section Edges.
Context `{Platform}.

(** X18.  A response with a timer but without text starts or stops the
    countdown like any other and plays its audio, but appends no message
    and therefore leaves every step status as it was. *)
Theorem timer_without_text_starts_countdown_only w i q resp st timer :
  pending w !! i = Some q -> kind q <> Summary ->
  readTimer (readsTasks (kind q)) resp = Some timer ->
  responseText resp = None \/ responseText resp = Some "" ->
  timerConsistent w ->
  let w' := dispatch (Settle i (Ok resp) st) w in
  messages w' = messages w
  /\ timeRemaining (view w') = countdownOf timer
  /\ (interval w' <> None <-> positive (TimerData.duration timer) = true)
  /\ stepStatuses w' = stepStatuses w
  /\ isPlaying (view w') = true.
Proof.
  intros Hq Hk Ht Hc Hw w'.
  destruct (settle_response_spec i q resp st w Hq Hk)
    as (Em & Et & Ei & _ & _ & _ & Ep & _).
  rewrite Ht in Et.
  assert (Em' : messages (handle (Settle i (Ok resp) st) w) = messages w).
  { cbn [handle]. rewrite Em. destruct Hc as [-> | ->]; apply app_nil_r. }
  destruct (commit_framed w (handle (Settle i (Ok resp) st) w))
    as (Fm & _ & _ & _ & _ & _ & _ & Fp & _).
  pose proof (commit_timer w (handle (Settle i (Ok resp) st) w)) as Ct.
  unfold timerOf, timerAfter in Ct. cbn [handle] in Ct. rewrite Et in Ct.
  split; [unfold w', dispatch; rewrite Fm; exact Em'|].
  assert (Hpos : forall t, countdownOf timer = Some t -> (0 < t)%Z)
    by apply countdownOf_positive.
  assert (Hcd : countdownOf timer <> None <-> positive (TimerData.duration timer) = true).
  { unfold countdownOf, positive. destruct (TimerData.duration timer) as [|d]; [done|].
    destruct (0 <? d)%Z; done. }
  assert (Htm : timeRemaining (view w') = countdownOf timer
                /\ (interval w' <> None <-> countdownOf timer <> None)).
  { unfold w', dispatch. cbn [handle].
    case_bool_decide as Heq.
    - injection Ct as -> Ci. split; [reflexivity|]. rewrite Ci, Ei.
      unfold timerConsistent in Hw. rewrite Heq in Hw.
      destruct (countdownOf timer); [by destruct Hw | by rewrite Hw].
    - destruct (countdownOf timer) as [t|] eqn:Ecd.
      + specialize (Hpos t eq_refl).
        rewrite (proj2 (Z.leb_gt t 0)) in Ct by lia.
        injection Ct as -> ->. done.
      + injection Ct as -> ->. done. }
  destruct Htm as [T1 T2].
  split; [exact T1|]. split; [by rewrite T2|].
  split.
  - unfold w', dispatch. rewrite commit_statuses, Em', Nat.eqb_refl. simpl.
    apply settle_statuses.
  - unfold w', dispatch. rewrite Fp. exact Ep.
Qed.

(** X19.  The text field is emptied when the response to a text turn
    arrives, whatever it held by then, and is left as it was when the
    request fails or a voice turn is submitted. *)
Theorem text_input_cleared_on_success_only w i q st :
  pending w !! i = Some q -> kind q = TextSubmit ->
  (forall resp, textInput (view (dispatch (Settle i (Ok resp) st) w)) = "")
  /\ textInput (view (dispatch (Settle i Failed st) w)) = textInput (view w)
  /\ forall s st',
       textInput (view (dispatch (SpeechResult s st') w)) = textInput (view w).
Proof.
  intros Hq Hk.
  assert (Hf : forall e, textInput (view (dispatch e w)) = textInput (view (handle e w))).
  { intros e. unfold dispatch.
    destruct (commit_framed w (handle e w)) as (_ & _ & _ & _ & _ & _ & _ & _ & _ & Ft).
    exact Ft. }
  split; [|split].
  - intros resp. rewrite Hf. cbn [handle]. unfold settle. rewrite Hq.
    cbv beta iota zeta. rewrite Hk. reflexivity.
  - rewrite Hf. cbn [handle]. unfold settle. rewrite Hq.
    cbv beta iota zeta. rewrite Hk. reflexivity.
  - intros s st'. rewrite Hf. reflexivity.
Qed.


End Edges.

(** * The step list *)

Section Steps.

Lemma elem_of_parallelWith steps step n :
  n ∈ parallelWith steps step <->
  exists t l, t ∈ steps /\ Step.step t = n
    /\ Step.parallel_with t = Some l /\ Step.step step ∈ l.
Proof.
  unfold parallelWith. rewrite list_elem_of_fmap. split.
  - intros (t & -> & Ht). apply list_elem_of_filter in Ht as [Hd Ht].
    unfold declares in Hd. destruct (Step.parallel_with t) as [l|] eqn:E; [|done].
    apply Is_true_true, bool_decide_eq_true in Hd. by exists t, l.
  - intros (t & l & Ht & <- & E & Hl). exists t. split; [done|].
    apply list_elem_of_filter. split; [|done].
    unfold declares. rewrite E. by apply Is_true_true, bool_decide_eq_true.
Qed.

Lemma processStep_sameStep steps s : sameStep s (processStep steps s).
Proof.
  unfold processStep, sameStep. destruct (Step.parallel_with s); simpl; auto 10.
Qed.

Lemma processStep_declared steps s l :
  Step.parallel_with s = Some l -> processStep steps s = s.
Proof. unfold processStep. by intros ->. Qed.

Lemma processStep_undeclared steps s :
  Step.parallel_with s = None ->
  Step.parallel_with (processStep steps s) =
    if (0 <? length (parallelWith steps s))%nat
    then Some (parallelWith steps s) else None.
Proof. unfold processStep. by intros ->. Qed.

(** X13.  Processing the fetched steps keeps their number, order and
    every field but parallel_with.  A step that declares parallel_with
    keeps its list.  A step that declares none gets the numbers of the
    steps that declare it, and no list at all (never an empty one) when
    no step does. *)
Theorem parallel_with_completed_from_declarations steps i s :
  steps !! i = Some s ->
  exists s',
    processedSteps steps !! i = Some s'
    /\ sameStep s s'
    /\ match Step.parallel_with s with
       | Some l => Step.parallel_with s' = Some l
       | None =>
           Step.parallel_with s' <> Some []
           /\ forall n,
                n ∈ default [] (Step.parallel_with s') <->
                exists t l, t ∈ steps /\ Step.step t = n
                  /\ Step.parallel_with t = Some l /\ Step.step s ∈ l
       end.
Proof.
  intros Hi. exists (processStep steps s).
  split; [unfold processedSteps; by rewrite list_lookup_fmap, Hi|].
  split; [apply processStep_sameStep|].
  destruct (Step.parallel_with s) as [l|] eqn:E.
  - by rewrite (processStep_declared steps s l E).
  - rewrite (processStep_undeclared steps s E).
    destruct (parallelWith steps s) as [|n0 pw] eqn:P; simpl.
    + split; [done|]. intros n. rewrite <- elem_of_parallelWith, P. done.
    + split; [done|]. intros n. rewrite <- elem_of_parallelWith, P. done.
Qed.

Lemma NoDup_fmap_elem {A B} (f : A -> B) (l : list A) x y :
  NoDup (map f l) -> x ∈ l -> y ∈ l -> f x = f y -> x = y.
Proof.
  intros Hn Hx Hy E.
  apply list_elem_of_lookup in Hx as [i Hi]. apply list_elem_of_lookup in Hy as [j Hj].
  assert (i = j).
  { eapply (NoDup_lookup (map f l)); [done|..].
    - change (map f l) with (f <$> l). rewrite list_lookup_fmap, Hi. done.
    - change (map f l) with (f <$> l). rewrite list_lookup_fmap, Hj. simpl.
      by rewrite E. }
  subst. congruence.
Qed.

Lemma processStep_settled steps s :
  NoDup (map Step.step steps) -> s ∈ steps ->
  processStep (processedSteps steps) (processStep steps s) = processStep steps s.
Proof.
  intros Hn Hs.
  destruct (Step.parallel_with s) as [l|] eqn:E.
  { rewrite (processStep_declared steps s l E).
    apply (processStep_declared _ s l E). }
  destruct (parallelWith steps s) as [|n0 pw] eqn:P.
  - assert (Hs0 : processStep steps s = s).
    { unfold processStep. rewrite E, P. simpl. destruct s; simpl in *. by subst. }
    rewrite Hs0.
    assert (P' : parallelWith (processedSteps steps) s = []).
    { destruct (parallelWith (processedSteps steps) s) as [|n pw'] eqn:P'; [done|].
      exfalso.
      assert (Hin : n ∈ parallelWith (processedSteps steps) s)
        by (rewrite P'; left).
      apply elem_of_parallelWith in Hin as (t' & l & Ht' & _ & El & Hl).
      unfold processedSteps in Ht'.
      apply list_elem_of_fmap in Ht' as (t & -> & Ht).
      destruct (Step.parallel_with t) as [l0|] eqn:Et.
      + rewrite (processStep_declared steps t l0 Et) in El.
        assert (Hc : Step.step t ∈ parallelWith steps s).
        { apply elem_of_parallelWith. exists t, l0. repeat split; try done.
          congruence. }
        rewrite P in Hc. by apply elem_of_nil in Hc.
      + rewrite (processStep_undeclared steps t Et) in El.
        destruct (0 <? length (parallelWith steps t))%nat; [|done].
        injection El as <-.
        apply elem_of_parallelWith in Hl as (u & lu & Hu & Eu & Elu & _).
        assert (u = s) by (eapply (NoDup_fmap_elem Step.step); eauto).
        subst u. congruence. }
    unfold processStep. rewrite E, P'. simpl. destruct s; simpl in *. by subst.
  - assert (Hp : Step.parallel_with (processStep steps s) = Some (n0 :: pw)).
    { rewrite (processStep_undeclared steps s E), P. reflexivity. }
    apply (processStep_declared _ _ _ Hp).
Qed.

(** X14.  When step numbers are unique, processing an already processed
    step list changes nothing. *)
Theorem processing_steps_twice_changes_nothing steps :
  NoDup (map Step.step steps) ->
  processedSteps (processedSteps steps) = processedSteps steps.
Proof.
  intros Hn.
  change (map (processStep (processedSteps steps)) (map (processStep steps) steps)
          = map (processStep steps) steps).
  rewrite map_map. apply map_ext_in. intros s Hs.
  apply processStep_settled; [done|]. by apply list_elem_of_In.
Qed.

End Steps.

(** * The clock *)

Section Clock.

(** X15.  The minutes and seconds shown for a duration add up to it
    exactly when the duration is not negative or is a multiple of 60.
    For a duration that is not negative the seconds lie in 0..59; for a
    negative one they are negative or zero. *)
Theorem clock_adds_up_iff_not_negative duration :
  (TimerDisplay.minutes duration * 60 + TimerDisplay.seconds duration = duration
   <-> 0 <= duration \/ duration mod 60 = 0)%Z
  /\ (0 <= duration -> 0 <= TimerDisplay.seconds duration < 60)%Z
  /\ (duration < 0 -> -60 < TimerDisplay.seconds duration <= 0)%Z.
Proof.
  unfold TimerDisplay.minutes, TimerDisplay.seconds.
  pose proof (Z.div_mod duration 60 ltac:(lia)) as Hd.
  pose proof (Z.mod_pos_bound duration 60 ltac:(lia)) as Hm.
  pose proof (Z.quot_rem duration 60 ltac:(lia)) as Hq.
  pose proof (Z.rem_bound_abs duration 60 ltac:(lia)) as Hr.
  split; [split|split].
  - intros E. destruct (Z.le_gt_cases 0 duration) as [Hp|Hn]; [by left|right].
    pose proof (Z.rem_nonpos duration 60 ltac:(lia) ltac:(lia)). lia.
  - intros [Hp|Hz].
    + rewrite Z.rem_mod_nonneg by lia. lia.
    + assert (Z.rem duration 60 = 0)%Z; [|lia].
      apply Z.rem_divide; [lia|]. apply Z.mod_divide; [lia|exact Hz].
  - intros Hp. pose proof (Z.rem_nonneg duration 60 ltac:(lia) Hp). lia.
  - intros Hn. pose proof (Z.rem_nonpos duration 60 ltac:(lia) ltac:(lia)). lia.
Qed.


Lemma string_app_length (s t : string) :
  String.length (s +:+ t) = String.length s + String.length t.
Proof. induction s as [|c s IH]; simpl; [reflexivity | by rewrite IH]. Qed.

Lemma string_app_inj_suffix (s1 s2 t1 t2 : string) :
  String.length t1 = String.length t2 ->
  s1 +:+ t1 = s2 +:+ t2 -> s1 = s2 /\ t1 = t2.
Proof.
  intros Hl. revert s2. induction s1 as [|c s1 IH]; intros [|c' s2] E.
  - done.
  - apply (f_equal String.length) in E.
    rewrite !string_app_length in E. simpl in E. lia.
  - apply (f_equal String.length) in E.
    rewrite !string_app_length in E. simpl in E. lia.
  - simpl in E. injection E as -> E. destruct (IH _ E) as [-> ->]. done.
Qed.

Lemma string_cons_inj_suffix c (t1 t2 : string) :
  String c "" +:+ t1 = String c "" +:+ t2 -> t1 = t2.
Proof. intros E. by injection E. Qed.

Lemma secondsField_length r : r < 60 -> String.length (secondsField r) = 2.
Proof.
  intros Hr.
  assert (Hall : forallb (fun r => (String.length (secondsField r) =? 2)%nat) (seq 0 60) = true)
    by (vm_compute; reflexivity).
  rewrite forallb_forall in Hall.
  apply Nat.eqb_eq, Hall, in_seq. lia.
Qed.

Lemma secondsField_inj r r' :
  r < 60 -> r' < 60 -> secondsField r = secondsField r' -> r = r'.
Proof.
  intros Hr Hr' E.
  assert (Hall : forallb (fun r => forallb (fun r' =>
            implb (String.eqb (secondsField r) (secondsField r')) (r =? r')%nat)
            (seq 0 60)) (seq 0 60) = true)
    by (vm_compute; reflexivity).
  rewrite forallb_forall in Hall.
  specialize (Hall r ltac:(apply in_seq; lia)).
  rewrite forallb_forall in Hall.
  specialize (Hall r' ltac:(apply in_seq; lia)).
  rewrite E, String.eqb_refl in Hall. simpl in Hall. by apply Nat.eqb_eq.
Qed.

Lemma formatTime_nonneg t :
  (0 <= t)%Z ->
  formatTime t =
    pretty (t / 60)%Z +:+ ":" +:+ secondsField (Z.to_nat (t mod 60))
  /\ Z.to_nat (t mod 60) < 60.
Proof.
  intros Ht. pose proof (Z.mod_pos_bound t 60 ltac:(lia)) as Hm.
  split; [|lia].
  unfold formatTime, secondsField. cbv zeta.
  rewrite Z.rem_mod_nonneg by lia. rewrite Z2Nat.id by lia. reflexivity.
Qed.

(** X16.  [formatTime] shows different texts for different times that
    are not negative. *)
Theorem clock_text_identifies_time a b :
  (0 <= a)%Z -> (0 <= b)%Z -> formatTime a = formatTime b -> a = b.
Proof.
  intros Ha Hb E.
  destruct (formatTime_nonneg a Ha) as [Ea La].
  destruct (formatTime_nonneg b Hb) as [Eb Lb].
  rewrite Ea, Eb in E.
  apply string_app_inj_suffix in E as [E1 E2];
    [|by rewrite !string_app_length, !secondsField_length].
  apply string_cons_inj_suffix in E2.
  apply (inj pretty) in E1.
  apply secondsField_inj in E2; [|done..].
  pose proof (Z.div_mod a 60 ltac:(lia)). pose proof (Z.div_mod b 60 ltac:(lia)).
  pose proof (Z.mod_pos_bound a 60 ltac:(lia)).
  pose proof (Z.mod_pos_bound b 60 ltac:(lia)).
  lia.
Qed.

End Clock.

(** * The dashboard *)

Section Dashboard.
Context `{Platform}.

Lemma dispatch_timer_status w i q resp st timer content :
  pending w !! i = Some q -> kind q <> Summary ->
  readTimer (readsTasks (kind q)) resp = Some timer ->
  responseText resp = Some content -> truthy content = true ->
  let w' := dispatch (Settle i (Ok resp) st) w in
  statusOf w' (TimerData.step timer) = in_progress
  /\ forall n, n <> TimerData.step timer -> statusOf w' n = statusOf w n.
Proof.
  intros Hq Hk Ht Hc Htr w'.
  destruct (settle_timer_message i q resp st w timer content Hq Hk Ht Hc Htr)
    as (L & _ & Hlen & _ & _ & _ & Hs).
  assert (Es : stepStatuses w' =
               stepStatuses (stepStatusesEffect (settle i (Ok resp) st w))).
  { unfold w', dispatch. cbn [handle]. rewrite commit_statuses, Hlen.
    replace (length (messages w) =? S (length (messages w)))%nat with false
      by (symmetry; apply Nat.eqb_neq; lia).
    reflexivity. }
  destruct (stepStatusesEffect_spec _ _ L) as [Hin Hout].
  unfold statusOf in *. rewrite Es. split; [exact Hin|].
  intros n Hn. rewrite (Hout (readTimer_no_statuses _ _ _ Ht) n Hn), Hs.
  reflexivity.
Qed.

(** X17.  After an assistant message with a timer for the step at row
    [index + 1], that row of the dashboard is yellow whatever it showed
    before, the current step or the countdown; every other row whose
    step was completed stays green. *)
Theorem timer_step_row_turns_yellow
    w i q resp st timer content index currentStep step :
  pending w !! i = Some q -> kind q <> Summary ->
  readTimer (readsTasks (kind q)) resp = Some timer ->
  responseText resp = Some content -> truthy content = true ->
  TimerData.step timer = Int (Z.of_nat index + 1) ->
  let w' := dispatch (Settle i (Ok resp) st) w in
  rowColor w' currentStep step index = "yellow.50"
  /\ forall index' step',
       index' <> index ->
       statusOf w (Int (Z.of_nat index' + 1)) = completed ->
       rowColor w' currentStep step' index' = "green.50".
Proof.
  intros Hq Hk Ht Hc Htr Hs w'.
  destruct (dispatch_timer_status w i q resp st timer content Hq Hk Ht Hc Htr)
    as [Hin Hout].
  fold w' in Hin, Hout. unfold statusOf in Hin, Hout. split.
  - unfold rowColor, statusColor. cbv zeta. rewrite <- Hs, Hin.
    rewrite bool_decide_eq_false_2 by done.
    rewrite (bool_decide_eq_true_2 (in_progress = in_progress)) by done.
    reflexivity.
  - intros index' step' Hi Hdone.
    unfold rowColor, statusColor. cbv zeta.
    rewrite Hout by (rewrite Hs; intros [=]; lia).
    unfold statusOf in Hdone. rewrite Hdone.
    rewrite bool_decide_eq_true_2 by done. reflexivity.
Qed.

End Dashboard.

Import Scenario.
#[local] Existing Instance Browser.platform.

(** C1 (code defect).  The user clicks the microphone while the opening
    request is still out; the narration then arrives and
    [getRecipeSummary], resumed with the first render, plays it without
    stopping capture: [isListening] and [isPlaying] are both true. *)
Theorem mic_click_before_narration_breaks_exclusion :
  let w1 := dispatch (ClickMic true) born in
  let w2 := dispatch (Settle 0 (Ok narration) (stamp 0)) w1 in
  exclusive born /\ exclusive w1
  /\ isListening (view w2) = true /\ isPlaying (view w2) = true
  /\ ~ exclusive w2.
Proof.
  vm_compute. repeat split; try (intros [? ?]; discriminate).
  intros Hex. apply Hex. by split.
Qed.





(** C4, the claim as stated fails: step 3 is completed, a timer for
    step 3 arrives, and the step is back to in_progress. *)
Lemma completed_step_regresses :
  let w := dispatch (Settle 0 (Ok (timerReply twoSecondsWithTasks)) (stamp 4))
             stepThreeDone in
  statusOf stepThreeDone (Int 3) = completed
  /\ statusOf w (Int 3) = in_progress
  /\ rank (statusOf w (Int 3)) < rank (statusOf stepThreeDone (Int 3)).
Proof. vm_compute. repeat split; lia. Qed.

(** The amended C4 on the timer for the completed step 3. *)
Lemma timer_message_marks_in_progress_witness :
  let resp := timerReply twoSecondsWithTasks in
  let w' := dispatch (Settle 0 (Ok resp) (stamp 4)) stepThreeDone in
  readTimer true resp = Some simmerTimer
  /\ statusOf w' (Int 3) = in_progress
  /\ (rank (statusOf stepThreeDone (Int 3)) <= rank (statusOf w' (Int 3))
      <-> statusOf stepThreeDone (Int 3) <> completed).
Proof.
  intros resp w'.
  assert (readTimer true resp = Some simmerTimer) as Htimer
    by (vm_compute; reflexivity).
  split; [exact Htimer|].
  destruct (timer_message_marks_in_progress stepThreeDone 0
              (mkRequest VoiceInput (firstRender "recipe-1")) resp (stamp 4)
              simmerTimer "Timer started" ltac:(vm_compute; reflexivity)
              ltac:(discriminate) Htimer ltac:(vm_compute; reflexivity)
              ltac:(vm_compute; reflexivity)) as (H1 & _ & H3).
  split; [exact H1 | exact H3].
Defined.



(** C6 (code defect).  The two-second countdown of [simmering] runs out.
    The completion cue fires once and the timer is idle, but the last
    message still carries its parallel task, so the effect sets
    [activeParallelSteps] to step 2 again instead of clearing it. *)
Theorem completion_keeps_parallel_steps :
  let w := run (ticks [true; true]) simmering in
  timeRemaining (view simmering) = Some 2%Z
  /\ timeRemaining (view w) = None /\ interval w = None
  /\ completions (trace w) = completions (trace simmering) + 1
  /\ activeParallelSteps w = [Int 2]
  /\ activeParallelSteps w <> [].
Proof. vm_compute. repeat split; discriminate. Qed.

(** C7 (code defect).  The timer announcement of [simmering] ends while
    the countdown is running (two seconds left, state cooking): capture
    starts all the same. *)
Theorem audio_end_starts_capture_during_countdown :
  let w := dispatch (AudioEnded true) simmering in
  timeRemaining (view simmering) = Some 2%Z
  /\ interval simmering <> None
  /\ currentStateRef simmering = cooking
  /\ isListening (view simmering) = false
  /\ isPlaying (view w) = false
  /\ isListening (view w) = true
  /\ last (trace w) = Some RecognitionStart.
Proof. vm_compute. repeat split; discriminate. Qed.



(** ** The further properties on concrete sessions *)

Import Pantry.

Lemma state_follows_next_state_witness :
  let w := run (opening ++ say "start timer" 1) (mount "recipe-1" true) in
  let w' := dispatch (Settle 0 (Ok cookingReply) (stamp 2)) w in
  pending w !! 0 = Some (mkRequest VoiceInput (firstRender "recipe-1"))
  /\ currentState w = asking_servings
  /\ currentState w' = cooking
  /\ currentStateRef w' = cooking.
Proof.
  intros w w'.
  assert (Hq : pending w !! 0 = Some (mkRequest VoiceInput (firstRender "recipe-1")))
    by (vm_compute; reflexivity).
  destruct (state_follows_next_state (opening ++ say "start timer" 1) "recipe-1"
              true 0 _ cookingReply (stamp 2) Hq) as [H1 H2].
  split; [exact Hq|]. split; [vm_compute; reflexivity|].
  split; [exact H1 | exact (eq_trans H2 H1)].
Defined.

Lemma client_never_completes_a_step_witness :
  let e := Settle 0 (Ok (timerReply twoSecondsWithTasks)) (stamp 2) in
  (forall m, e <> RecipeFetched m)
  /\ (statusOf (dispatch e awaiting) (Int 3) = completed ->
      statusOf awaiting (Int 3) = completed).
Proof.
  intros e.
  assert (He : forall m, e <> RecipeFetched m) by (intros m; discriminate).
  split; [exact He|].
  exact (proj1 (proj2 (client_never_completes_a_step e awaiting (Int 3) He))).
Defined.

Lemma countdown_completion_witness :
  interval lastSecond = Some (view lastSecond)
  /\ timeRemaining (view lastSecond) = Some 1%Z
  /\ timeRemaining (view (dispatch (Tick true) lastSecond)) = None
  /\ completions (trace (dispatch (Tick true) lastSecond)) =
       completions (trace lastSecond) + 1
  /\ isListening (view (dispatch (Tick true) lastSecond)) =
       isListening (view lastSecond).
Proof.
  assert (Hi : interval lastSecond = Some (view lastSecond))
    by (vm_compute; reflexivity).
  assert (Ht : timeRemaining (view lastSecond) = Some 1%Z)
    by (vm_compute; reflexivity).
  destruct (countdown_completion true (view lastSecond) lastSecond Hi Ht)
    as (H1 & _ & _ & H4 & _ & _ & H7 & _).
  split; [exact Hi|]. split; [exact Ht|]. split; [exact H1|].
  split; [exact H4|]. rewrite H7. vm_compute. reflexivity.
Defined.

Lemma voice_timer_sets_parallel_steps_witness :
  let resp := timerReply twoSecondsWithTasks in
  readTimer true resp = Some simmerTimer
  /\ activeParallelSteps (dispatch (Settle 0 (Ok resp) (stamp 2)) awaiting) = [Int 2].
Proof.
  intros resp.
  assert (Htimer : readTimer true resp = Some simmerTimer)
    by (vm_compute; reflexivity).
  split; [exact Htimer|].
  exact (voice_timer_sets_parallel_steps awaiting 0
           (mkRequest VoiceInput (firstRender "recipe-1")) resp (stamp 2)
           simmerTimer "Timer started"
           [ParallelTask.mk (Int 2) "Chop garlic" (Int 120)]
           ltac:(vm_compute; reflexivity) ltac:(reflexivity) Htimer
           ltac:(vm_compute; reflexivity) ltac:(reflexivity)
           ltac:(reflexivity)).
Defined.

Lemma text_timer_drops_parallel_tasks_witness :
  let resp := timerReply twoSecondsWithTasks in
  let w' := dispatch (Settle 0 (Ok resp) (stamp 2)) submitted in
  pending submitted !! 0 = Some (mkRequest TextSubmit (view typing))
  /\ readTimer false resp = Some typedTimer
  /\ last (messages w') ≫= Message.timer = Some typedTimer
  /\ activeParallelSteps w' = activeParallelSteps submitted.
Proof.
  intros resp w'.
  assert (Hq : pending submitted !! 0 = Some (mkRequest TextSubmit (view typing)))
    by (vm_compute; reflexivity).
  assert (Htimer : readTimer false resp = Some typedTimer)
    by (vm_compute; reflexivity).
  destruct (text_timer_drops_parallel_tasks submitted 0 _ resp (stamp 2)
              typedTimer "Timer started" Hq ltac:(reflexivity) Htimer
              ltac:(vm_compute; reflexivity) ltac:(reflexivity))
    as (_ & H2 & H3).
  split; [exact Hq|]. split; [exact Htimer|]. split; [exact H2 | exact H3].
Defined.

Lemma opening_narration_sets_no_timer_witness :
  let w' := dispatch (Settle 0 (Ok narration) (stamp 0)) born in
  pending born !! 0 = Some (mkRequest Summary (firstRender "recipe-1"))
  /\ timeRemaining (view w') = timeRemaining (view born)
  /\ currentRecipeId (view w') = currentRecipeId (view born)
  /\ stepStatuses w' = stepStatuses born.
Proof.
  intros w'.
  assert (Hq : pending born !! 0 = Some (mkRequest Summary (firstRender "recipe-1")))
    by (vm_compute; reflexivity).
  destruct (opening_narration_sets_no_timer born 0 _ (Ok narration) (stamp 0)
              Hq ltac:(reflexivity)) as (_ & H2 & _ & H4 & H5 & _).
  split; [exact Hq|]. split; [exact H2|]. split; [exact H4 | exact H5].
Defined.

Lemma mic_button_toggles_capture_witness :
  isPlaying (view listening) = false
  /\ recognitionRef listening = true
  /\ isListening (view (dispatch (ClickMic true) listening)) =
       negb (isListening (view listening))
  /\ isListening (view (run [ClickMic true; ClickMic true] listening)) =
       isListening (view listening).
Proof.
  assert (Hp : isPlaying (view listening) = false) by (vm_compute; reflexivity).
  assert (Hr : recognitionRef listening = true) by (vm_compute; reflexivity).
  destruct (proj2 (proj2 (mic_button_toggles_capture true listening))
              Hp Hr eq_refl) as (H1 & _ & H3).
  split; [exact Hp|]. split; [exact Hr|]. split; [exact H1 | exact H3].
Defined.

Lemma parallel_with_completed_from_declarations_witness :
  recipe !! 1 = Some chop
  /\ exists s', processedSteps recipe !! 1 = Some s'
       /\ sameStep chop s'
       /\ forall n, n ∈ default [] (Step.parallel_with s') <->
            exists t l, t ∈ recipe /\ Step.step t = n
              /\ Step.parallel_with t = Some l /\ Step.step chop ∈ l.
Proof.
  split; [reflexivity|].
  destruct (parallel_with_completed_from_declarations recipe 1 chop eq_refl)
    as (s' & H1 & H2 & H3).
  exists s'. split; [exact H1|]. split; [exact H2|]. exact (proj2 H3).
Defined.

Lemma processing_steps_twice_changes_nothing_witness :
  NoDup (map Step.step recipe)
  /\ processedSteps (processedSteps recipe) = processedSteps recipe.
Proof.
  assert (Hn : NoDup (map Step.step recipe))
    by (apply (bool_decide_unpack _); vm_compute; exact I).
  split; [exact Hn|].
  exact (processing_steps_twice_changes_nothing recipe Hn).
Defined.

Lemma clock_adds_up_iff_not_negative_witness :
  (0 <= 125)%Z /\ (0 <= TimerDisplay.seconds 125 < 60)%Z.
Proof.
  assert (Hp : (0 <= 125)%Z) by lia.
  split; [exact Hp|].
  exact (proj1 (proj2 (clock_adds_up_iff_not_negative 125)) Hp).
Defined.

Lemma clock_text_identifies_time_witness :
  (0 <= 125)%Z /\ (0 <= 2 * 60 + 5)%Z
  /\ formatTime 125 = formatTime (2 * 60 + 5)
  /\ 125%Z = (2 * 60 + 5)%Z.
Proof.
  assert (Ha : (0 <= 125)%Z) by lia.
  assert (Hb : (0 <= 2 * 60 + 5)%Z) by lia.
  assert (E : formatTime 125 = formatTime (2 * 60 + 5)) by (vm_compute; reflexivity).
  split; [exact Ha|]. split; [exact Hb|]. split; [exact E|].
  exact (clock_text_identifies_time 125 (2 * 60 + 5) Ha Hb E).
Defined.

Lemma timer_step_row_turns_yellow_witness :
  let resp := timerReply twoSecondsWithTasks in
  let w' := dispatch (Settle 0 (Ok resp) (stamp 4)) stepThreeDone in
  readTimer true resp = Some simmerTimer
  /\ statusOf stepThreeDone (Int 3) = completed
  /\ rowColor w' (Int 1) fry 2 = "yellow.50".
Proof.
  intros resp w'.
  assert (Htimer : readTimer true resp = Some simmerTimer)
    by (vm_compute; reflexivity).
  split; [exact Htimer|]. split; [vm_compute; reflexivity|].
  exact (proj1 (timer_step_row_turns_yellow stepThreeDone 0
           (mkRequest VoiceInput (firstRender "recipe-1")) resp (stamp 4)
           simmerTimer "Timer started" 2 (Int 1) fry
           ltac:(vm_compute; reflexivity) ltac:(discriminate) Htimer
           ltac:(vm_compute; reflexivity) ltac:(reflexivity)
           ltac:(reflexivity))).
Defined.

Lemma timer_without_text_starts_countdown_only_witness :
  let w' := dispatch (Settle 0 (Ok silentTimerReply) (stamp 2)) awaiting in
  readTimer true silentTimerReply = Some halfMinuteTimer
  /\ responseText silentTimerReply = None
  /\ timerConsistent awaiting
  /\ messages w' = messages awaiting
  /\ timeRemaining (view w') = Some 30%Z
  /\ stepStatuses w' = stepStatuses awaiting.
Proof.
  intros w'.
  assert (Htimer : readTimer true silentTimerReply = Some halfMinuteTimer)
    by (vm_compute; reflexivity).
  assert (Hw : timerConsistent awaiting) by (vm_compute; reflexivity).
  destruct (timer_without_text_starts_countdown_only awaiting 0
              (mkRequest VoiceInput (firstRender "recipe-1")) silentTimerReply
              (stamp 2) halfMinuteTimer ltac:(vm_compute; reflexivity)
              ltac:(discriminate) Htimer (or_introl eq_refl) Hw)
    as (H1 & H2 & _ & H4 & _).
  split; [exact Htimer|]. split; [reflexivity|]. split; [exact Hw|].
  split; [exact H1|]. split; [exact H2 | exact H4].
Defined.

Lemma text_input_cleared_on_success_only_witness :
  let w := dispatch (TypeText "and then?") submitted in
  pending w !! 0 = Some (mkRequest TextSubmit (view typing))
  /\ textInput (view w) = "and then?"
  /\ textInput (view (dispatch (Settle 0 (Ok cookingReply) (stamp 2)) w)) = ""
  /\ textInput (view (dispatch (Settle 0 Failed (stamp 2)) w)) = "and then?".
Proof.
  intros w.
  assert (Hq : pending w !! 0 = Some (mkRequest TextSubmit (view typing)))
    by (vm_compute; reflexivity).
  assert (Ht : textInput (view w) = "and then?") by (vm_compute; reflexivity).
  destruct (text_input_cleared_on_success_only w 0 _ (stamp 2) Hq
              ltac:(reflexivity)) as (H1 & H2 & _).
  split; [exact Hq|]. split; [exact Ht|].
  split; [apply H1 | exact (eq_trans H2 Ht)].
Defined.

